(** * neotest-python, Django adapter: [neotest_python/djangotest.py]

    A shallow embedding of [DjangoNeotestAdapter] and of the result
    interceptor [NeotestTextTestResult] it defines, together with the parts
    of the Python standard library the adapter calls ([str.split],
    [str.join], [str.replace], [os.path.relpath], [os.path.splitext],
    [os.path.isfile], [pathlib.Path.absolute], [next]).

    Conventions.
    - A Python [str] is a Rocq [string].  Every character the adapter looks
      at (['/'], ['.'], [':']) is ASCII, so reading a [string] as the UTF-8
      bytes of the Python text changes none of the results.
    - The platform is POSIX: [os.sep = "/"] and [os.path] is [posixpath].
    - Python exceptions are values of [exn]; a computation that may raise
      returns a [result]; a computation that also mutates objects is a
      function from the [state] to a [result] paired with the new [state]:
      what was mutated before an exception stays mutated, as in Python.
    - The diagnostic [print] calls of the source write object
      representations to standard output and are left out.
    - [unittest] is that of CPython 3.11.  Two things it does reach the
      adapter: [TestResult.addFailure], which the interceptor calls as
      [super().addFailure], cuts the traceback it is given, in place; and
      the failures and errors of a test are reported from inside a
      generator, which turns a [StopIteration] into a [RuntimeError]. *)

From Stdlib Require Import ZArith Ascii.
From stdpp Require Import gmap strings list fin_maps.

(** ** Python exceptions and the two effect shapes *)

Inductive exn : Type :=
  | StopIteration
  | ValueError
  | IndexError
  | KeyError
  | RuntimeError.

Inductive result (A : Type) : Type :=
  | Ok (a : A)
  | Raise (e : exn).
Arguments Ok {A} a.
Arguments Raise {A} e.

Definition rbind {A B} (r : result A) (k : A → result B) : result B :=
  match r with
  | Ok a => k a
  | Raise e => Raise e
  end.

(** ** Python [str] methods *)

Module PyStr.

(** [s.startswith(p)] *)
Definition startswith (s p : string) : bool := String.prefix p s.

(** [s.endswith(p)]: [p] is [s] or ends what follows the first character *)
Fixpoint endswith (s p : string) : bool :=
  bool_decide (s = p) ||
  match s with
  | EmptyString => false
  | String _ s' => endswith s' p
  end.

(** [sub in s] *)
Fixpoint contains (sub s : string) : bool :=
  startswith s sub ||
  match s with
  | EmptyString => false
  | String _ s' => contains sub s'
  end.

(** [s.split(sep)] for a non-empty [sep]: the occurrences of [sep] are
    found from the left and do not overlap.  [skip] counts the characters
    of an occurrence of [sep] that are still to be passed over.  The result
    always has a first piece; the character read is put in front of it. *)
Fixpoint split_go (sep : string) (skip : nat) (s : string) : list string :=
  match s with
  | EmptyString => [EmptyString]
  | String c s' =>
      match skip with
      | S k => split_go sep k s'
      | O =>
          if startswith s sep
          then EmptyString :: split_go sep (String.length sep - 1) s'
          else match split_go sep 0 s' with
               | w :: ws => String c w :: ws
               | [] => [String c EmptyString]
               end
      end
  end.

Definition split (sep s : string) : list string := split_go sep 0 s.

(** [sep.join(l)] *)
Definition join (sep : string) (l : list string) : string :=
  String.concat sep l.

(** [s.replace(old, new)] for a non-empty [old] *)
Fixpoint replace_go (old new : string) (skip : nat) (s : string) : string :=
  match s with
  | EmptyString => EmptyString
  | String c s' =>
      match skip with
      | S k => replace_go old new k s'
      | O =>
          if startswith s old
          then new +:+ replace_go old new (String.length old - 1) s'
          else String c (replace_go old new 0 s')
      end
  end.

Definition replace (old new s : string) : string := replace_go old new 0 s.

(** [s.rfind(c)] for a one-character [c]: the index of the last
    occurrence, [-1] when there is none. *)
Fixpoint rfind_go (c : ascii) (i : Z) (last : Z) (s : string) : Z :=
  match s with
  | EmptyString => last
  | String d s' =>
      rfind_go c (i + 1)%Z (if Ascii.eqb c d then i else last) s'
  end.

Definition rfind (c : ascii) (s : string) : Z := rfind_go c 0%Z (-1)%Z s.

(** the slices [s[:n]] and [s[n:]] for [0 <= n] *)
Fixpoint slice_to (n : nat) (s : string) : string :=
  match n, s with
  | S k, String c s' => String c (slice_to k s')
  | _, _ => EmptyString
  end.

Fixpoint slice_from (n : nat) (s : string) : string :=
  match n, s with
  | S k, String _ s' => slice_from k s'
  | _, _ => s
  end.

(** [s[i:i+1]] *)
Definition char_at (i : nat) (s : string) : string :=
  slice_to 1 (slice_from i s).

End PyStr.

(** ** The environment of the process

    What the adapter reads from the operating system and the interpreter:
    the current working directory ([os.getcwd()]), the file system as
    [os.stat] sees it, and [sys.argv]. *)

Inductive file_type : Type :=
  | S_IFREG   (* a regular file *)
  | S_IFDIR   (* a directory *)
  | S_IFOTHER (* anything else: a device, a socket, a FIFO *).

Record Env : Type := {
  getcwd : string;
  fs : string → option file_type;
  sys_argv : list string;
}.

(** [os.stat(path)], [None] standing for the [OSError] it raises.  POSIX
    resolves the empty pathname to nothing ([ENOENT]). *)
Definition os_stat (env : Env) (path : string) : option file_type :=
  if bool_decide (path = "") then None else fs env path.

(** ** [os.path] on POSIX ([posixpath] and [genericpath]) *)

Module PosixPath.
Import PyStr.

Definition sep : string := "/".
Definition curdir : string := ".".
Definition pardir : string := "..".

(** [os.path.isfile]: [os.stat], [False] when it raises, else [S_ISREG] *)
Definition isfile (env : Env) (path : string) : bool :=
  match os_stat env path with
  | Some S_IFREG => true
  | _ => false
  end.

Definition isabs (s : string) : bool := startswith s sep.

(** [os.path.join(a, b)] *)
Definition join2 (a b : string) : string :=
  if startswith b sep then b
  else if bool_decide (a = "") || endswith a sep then a +:+ b
  else a +:+ sep +:+ b.

(** one turn of the loop of [normpath] over the components *)
Definition normpath_step (initial_slashes : nat)
    (new_comps : list string) (comp : string) : list string :=
  if bool_decide (comp = "") || bool_decide (comp = curdir) then new_comps
  else if negb (bool_decide (comp = pardir))
       || (bool_decide (initial_slashes = 0) && bool_decide (new_comps = []))
       || (negb (bool_decide (new_comps = []))
           && bool_decide (last new_comps = Some pardir))
  then new_comps ++ [comp]
  else if negb (bool_decide (new_comps = [])) then removelast new_comps
  else new_comps.

Definition normpath (path : string) : string :=
  if bool_decide (path = "") then curdir
  else
    let initial_slashes :=
      if startswith path sep then
        if startswith path (sep +:+ sep)
           && negb (startswith path (sep +:+ sep +:+ sep))
        then 2 else 1
      else 0 in
    let comps := split sep path in
    let new_comps := fold_left (normpath_step initial_slashes) comps [] in
    let path' := join sep new_comps in
    let path' :=
      match initial_slashes with
      | 0 => path'
      | 1 => sep +:+ path'
      | _ => sep +:+ sep +:+ path'
      end in
    if bool_decide (path' = "") then curdir else path'.

Definition abspath (env : Env) (path : string) : string :=
  normpath (if isabs path then path else join2 (getcwd env) path).

(** [len(commonprefix([l1, l2]))] on two lists of components: the length
    of their longest common prefix *)
Fixpoint commonprefix_len (l1 l2 : list string) : nat :=
  match l1, l2 with
  | x :: l1', y :: l2' =>
      if bool_decide (x = y) then S (commonprefix_len l1' l2') else 0
  | _, _ => 0
  end.

(** the components [[x for x in p.split(sep) if x]] *)
Definition components (p : string) : list string :=
  filter (λ x, x ≠ "") (split sep p).

(** [os.path.relpath(path, start)] *)
Definition relpath (env : Env) (path start : string) : result string :=
  if bool_decide (path = "") then Raise ValueError
  else
    let start_list := components (abspath env start) in
    let path_list := components (abspath env path) in
    let i := commonprefix_len start_list path_list in
    let rel_list :=
      replicate (length start_list - i) pardir ++ drop i path_list in
    if bool_decide (rel_list = []) then Ok curdir
    else Ok (join sep rel_list).

(** the loop of [genericpath._splitext] that passes over the leading dots
    of the last component; [n] is [dotIndex - filenameIndex] *)
Fixpoint splitext_scan (p : string) (dotIndex filenameIndex n : nat)
    : string * string :=
  match n with
  | O => (p, "")
  | S k =>
      if negb (bool_decide (char_at filenameIndex p = "."))
      then (slice_to dotIndex p, slice_from dotIndex p)
      else splitext_scan p dotIndex (S filenameIndex) k
  end.

(** [os.path.splitext(p)] *)
Definition splitext (p : string) : string * string :=
  let sepIndex := rfind "/" p in
  let dotIndex := rfind "." p in
  if (sepIndex <? dotIndex)%Z
  then splitext_scan p (Z.to_nat dotIndex) (Z.to_nat (sepIndex + 1))
         (Z.to_nat (dotIndex - (sepIndex + 1)))
  else (p, "").

End PosixPath.

(** ** [pathlib] on POSIX: [str(Path(s).absolute())] *)

Module Pathlib.
Import PyStr.

(** the root that [posixpath.splitroot] finds: exactly two leading
    slashes are kept, one or three and more are one *)
Definition root (s : string) : string :=
  if negb (startswith s "/") then ""
  else if startswith s "//" && negb (startswith s "///") then "//"
  else "/".

(** the parsed components: empty ones and ["."] are dropped *)
Definition tail (s : string) : list string :=
  filter (λ x, x ≠ "" ∧ x ≠ ".") (split "/" s).

(** [str(Path(s))] *)
Definition str_of_path (s : string) : string :=
  let r := root s +:+ join "/" (tail s) in
  if bool_decide (r = "") then "." else r.

(** [str(Path(s).absolute())]: an absolute path is itself; an empty one
    is the working directory; any other is joined to it. *)
Definition absolute (env : Env) (s : string) : string :=
  if negb (bool_decide (root s = "")) then str_of_path s
  else if bool_decide (tail s = []) then getcwd env
  else str_of_path (PosixPath.join2 (getcwd env) s).

End Pathlib.

(** ** The values of the adapter *)

(** Modelled from the spec: [NeotestResultStatus] is declared in
    [neotest_python/base.py]; a Result Record's status is one of
    PASSED and FAILED. *)
Inductive NeotestResultStatus : Type :=
  | PASSED
  | FAILED.

(** The Python values that occur in a Result Record.  A [dict] is the list
    of its items in insertion order; the dict displays of the source have
    distinct keys. *)
#[warnings="-register-all"]
Inductive pyval : Type :=
  | PNone
  | PInt (z : Z)
  | PStr (s : string)
  | PStatus (s : NeotestResultStatus)
  | PList (l : list pyval)
  | PDict (d : list (string * pyval)).

(** [d[key]] on an item list *)
Fixpoint items_get (key : string) (d : list (string * pyval)) : option pyval :=
  match d with
  | [] => None
  | (k, v) :: d' => if bool_decide (k = key) then Some v else items_get key d'
  end.

(** [v[key]] when [v] is a dict that has [key] *)
Definition dict_get (key : string) (v : pyval) : option pyval :=
  match v with
  | PDict d => items_get key d
  | _ => None
  end.

(** [key in v] *)
Definition has_key (key : string) (v : pyval) : bool :=
  match dict_get key v with
  | Some _ => true
  | None => false
  end.

(** A test object, by what the interceptor reads from it.  Its module has
    a file: for a module without [__file__] the interceptor fails with
    [AttributeError] before it does anything, and no test of such a module
    is a [Case]. *)
Record Case : Type := {
  module_file : string;      (* inspect.getmodule(case).__file__ *)
  class_name : string;       (* case.__class__.__name__ *)
  is_TestCase : bool;        (* isinstance(case, django.test.TestCase) *)
  testMethodName : string;   (* case._testMethodName *)
}.

(** An entry of [traceback.extract_tb(err[2])]. *)
Record FrameSummary : Type := {
  filename : string;
  lineno : Z;
  name : string;
}.

(** [err] of an error, by the frames [traceback.extract_tb(err[2])]
    returns: the outermost call first, the frame that raised last.
    unittest reports as an error an exception that is not of the test's
    [failureException]: [TestResult.addError] leaves its traceback whole. *)
Definition exc_info : Type := list FrameSummary.

(** A level of a traceback object: the entry [traceback.extract_tb] makes
    of it, and whether the globals of its frame have [__unittest], as the
    frames of unittest's own modules do. *)
Record traceback_level : Type := {
  tb_frame : FrameSummary;
  tb_unittest : bool;        (* '__unittest' in tb.tb_frame.f_globals *)
}.

(** [err] of a failure: whether [err[0]] is the test's [failureException]
    itself, not a subclass of it, and the levels of [err[2]], the outermost
    call first. *)
Record failure_info : Type := {
  exact_failureException : bool;   (* err[0] is test.failureException *)
  tb_levels : list traceback_level;
}.

(** [traceback.extract_tb(tb)] *)
Definition extract_tb (tb : list traceback_level) : exc_info :=
  tb_frame <$> tb.

(** ** The mutable state *)

Record state : Type := {
  sys_path : list string;                (* sys.path, as the adapter writes it *)
  neo_results : gmap string pyval;       (* self.neo_results *)
  streamed : list (string * pyval);      (* the calls of [stream], in order *)
}.

Definition set_sys_path (f : list string → list string) (st : state) : state :=
  {| sys_path := f (sys_path st);
     neo_results := neo_results st;
     streamed := streamed st |}.

Definition set_neo_results (f : gmap string pyval → gmap string pyval)
    (st : state) : state :=
  {| sys_path := sys_path st;
     neo_results := f (neo_results st);
     streamed := streamed st |}.

Definition set_streamed (f : list (string * pyval) → list (string * pyval))
    (st : state) : state :=
  {| sys_path := sys_path st;
     neo_results := neo_results st;
     streamed := f (streamed st) |}.

(** A statement: it reads and writes the state and returns or raises. *)
Definition M (A : Type) : Type := state → result A * state.

#[global] Instance result_ret : MRet result := λ A a, Ok a.
#[global] Instance result_bind : MBind result := λ A B k r, rbind r k.

#[global] Instance M_ret : MRet M := λ A a st, (Ok a, st).
#[global] Instance M_bind : MBind M := λ A B k m st,
  match m st with
  | (Ok a, st') => k a st'
  | (Raise e, st') => (Raise e, st')
  end.

Definition lift {A} (r : result A) : M A := λ st, (r, st).
Definition modify (f : state → state) : M unit := λ st, (Ok tt, f st).
Definition gets {A} (f : state → A) : M A := λ st, (Ok (f st), st).

(** ** Built-ins *)

(** [next(it)] on the items an iterator still has to yield *)
Definition next {A} (it : list A) : result A :=
  match it with
  | x :: _ => Ok x
  | [] => Raise StopIteration
  end.

(** [l[-1]] *)
Definition index_last {A} (l : list A) : result A :=
  match last l with
  | Some x => Ok x
  | None => Raise IndexError
  end.

(** [l[i]] for [0 <= i] *)
Definition index {A} (l : list A) (i : nat) : result A :=
  match l !! i with
  | Some x => Ok x
  | None => Raise IndexError
  end.

(** [d[key]] on [self.neo_results] *)
Definition getitem (key : string) : M pyval := λ st,
  match neo_results st !! key with
  | Some v => (Ok v, st)
  | None => (Raise KeyError, st)
  end.

(** ** [DjangoNeotestAdapter.id_to_unittest_args] *)

(** Converts a neotest ID into test specifier for unittest.  The unpacking
    [path, *child_ids = ...] raises [ValueError] on an empty list. *)
Definition id_to_unittest_args (env : Env) (case_id : string)
    : result (list string) :=
  match PyStr.split "::" case_id with
  | [] => Raise ValueError
  | path :: child_ids =>
      if bool_decide (child_ids = []) then
        if PosixPath.isfile env path then
          (* Test files can be passed directly to unittest *)
          relative_file ← PosixPath.relpath env path (getcwd env);
          let relative_stem := (PosixPath.splitext relative_file).1 in
          let relative_dotted :=
            PyStr.replace PosixPath.sep "." relative_stem in
          Ok [relative_dotted]
        else
          (* Directories need to be run via the 'discover' argument *)
          Ok [case_id]
      else
        (* Otherwise, convert the ID into a dotted path, relative to
           current dir *)
        relative_file ← PosixPath.relpath env path (getcwd env);
        let relative_stem := (PosixPath.splitext relative_file).1 in
        let relative_dotted :=
          PyStr.replace PosixPath.sep "." relative_stem in
        Ok [PyStr.join "." (relative_dotted :: child_ids)]
  end.

(** ** [unittest.TestResult], as [super()] of the interceptor

    The [super()] calls are the bookkeeping of [unittest.TextTestResult]:
    its own lists and its progress output.  One of them touches what the
    interceptor reads: to format a failure, [TestResult.addFailure] cleans
    the traceback of [err], and the cut it makes is made in the traceback
    object itself ([prev.tb_next = None]). *)

(** [TestResult._is_relevant_tb_level(tb)] *)
Definition is_relevant_tb_level (tb : traceback_level) : bool :=
  tb_unittest tb.

(** the levels a traceback begins with that are not unittest's: the loop
    [while tb and not self._is_relevant_tb_level(tb)] *)
Fixpoint usercode_levels (tb : list traceback_level) : list traceback_level :=
  match tb with
  | [] => []
  | level :: tb' =>
      if is_relevant_tb_level level then [] else level :: usercode_levels tb'
  end.

(** [TestResult._remove_unittest_tb_frames(tb)], by the traceback it
    leaves: a traceback that begins in user code is cut before its first
    unittest level; one that begins in unittest, or is empty, is not
    modified ([prev is None]). *)
Definition remove_unittest_tb_frames (tb : list traceback_level)
    : list traceback_level :=
  match usercode_levels tb with
  | [] => tb
  | usercode => usercode
  end.

(** [TestResult._clean_tracebacks(exctype, value, tb, test)], by what it
    leaves of [tb]: the runner's levels at the head are skipped, and stay;
    what follows them is cut when [exctype is test.failureException].  The
    tracebacks of chained exceptions, which it cleans too, are other
    objects. *)
Fixpoint clean_tracebacks (exact : bool) (tb : list traceback_level)
    : list traceback_level :=
  match tb with
  | [] => []
  | level :: tb' =>
      if is_relevant_tb_level level then level :: clean_tracebacks exact tb'
      else if exact then remove_unittest_tb_frames tb
      else tb
  end.

(** [TestResult.addFailure(test, err)], by what it leaves of [err] *)
Definition TestResult_addFailure (err : failure_info) : failure_info :=
  {| exact_failureException := exact_failureException err;
     tb_levels :=
       clean_tracebacks (exact_failureException err) (tb_levels err) |}.

(** ** [NeotestTextTestResult]

    [env] is the process environment; the [stream] argument of [run] is
    the callback whose calls the state records. *)

(** [__init__]: [self.neo_results = {}] *)
Definition init : M unit := modify (set_neo_results (λ _, ∅)).

Definition case_file (env : Env) (case : Case) : string :=
  Pathlib.absolute env (module_file case).

Definition case_id_elems (env : Env) (case : Case) : list string :=
  let file := case_file env case in
  let elems := [file; class_name case] in
  if is_TestCase case then elems ++ [testMethodName case] else elems.

Definition case_id (env : Env) (case : Case) : string :=
  PyStr.join "::" (case_id_elems env case).

(** [stream(case_id, record)] *)
Definition stream (id : string) (record : pyval) : M unit :=
  modify (set_streamed (λ calls, calls ++ [(id, record)])).

(** the generator [frame.lineno - 1 for frame in reversed(summary)
    if frame.filename == case_file], by the items it yields *)
Definition error_lines (file : string) (summary : exc_info) : list Z :=
  (λ frame, (lineno frame - 1)%Z)
    <$> filter (λ frame, filename frame = file) (reverse summary).

(** the dict display of [addFailure] and [addError] *)
Definition failed_record (error_line : Z) : pyval :=
  PDict [("status", PStatus FAILED);
         ("errors", PList [PDict [("message", PNone);
                                  ("line", PInt error_line)]]);
         ("short", PNone)].

(** the dict display of [addSuccess] *)
Definition passed_record : pyval :=
  PDict [("status", PStatus PASSED)].

Definition addFailure (env : Env) (test : Case) (err : failure_info)
    : M unit :=
  let err := TestResult_addFailure err in   (* super().addFailure(test, err) *)
  let case_id := case_id env test in
  let case_file := case_file env test in
  let trace := tb_levels err in
  let summary := extract_tb trace in
  error_line ← lift (next (error_lines case_file summary));
  modify (set_neo_results (insert case_id (failed_record error_line)));;
  record ← getitem case_id;
  stream case_id record.

(** [super().addError(test, err)] cuts nothing: [err[0]] is not the
    failure type. *)
Definition addError (env : Env) (test : Case) (err : exc_info) : M unit :=
  let case_id := case_id env test in
  let case_file := case_file env test in
  let summary := err in
  error_line ← lift (next (error_lines case_file summary));
  modify (set_neo_results (insert case_id (failed_record error_line)));;
  record ← getitem case_id;
  stream case_id record.

Definition addSuccess (env : Env) (test : Case) : M unit :=
  modify (set_neo_results (insert (case_id env test) passed_record));;
  record ← getitem (case_id env test);
  stream (case_id env test) record.

(** ** The test run

    What Django's [DiscoverRunner] does with the result class is its own:
    it builds the suite of the labels and reports every test of it, in
    order, to one result object.  A test passes; a part of it (its set-up,
    its method, its tear-down, a clean-up) fails or is in error; a fixture
    of its class or module is in error, which the suite reports for a
    stand-in test object; or it is reported through a callback the
    interceptor does not override (a skip, an expected failure, an
    unexpected success, a subtest). *)

Inductive outcome : Type :=
  | Success
  | Failure (err : failure_info)
  | Error (err : exc_info)
  | ClassOrModuleError (err : exc_info)
  | Other.

Definition report (env : Env) (t : Case * outcome) : M unit :=
  match t.2 with
  | Success => addSuccess env t.1
  | Failure err => addFailure env t.1 err
  | Error err | ClassOrModuleError err => addError env t.1 err
  | Other => mret tt
  end.

(** [_Outcome.testPartExecutor], a generator behind
    [contextlib.contextmanager]: the callback runs in the handler of the
    generator, and a [StopIteration] that would leave a generator leaves it
    as [RuntimeError]; any other exception leaves it as it is. *)
Definition testPartExecutor (callback : M unit) : M unit := λ st,
  match callback st with
  | (Raise StopIteration, st') => (Raise RuntimeError, st')
  | r => r
  end.

(** the callback of one test, from where unittest calls it: the failure
    and the error of a part of a test from [testPartExecutor];
    [addSuccess] from [TestCase.run], the error of a fixture from
    [TestSuite._addClassOrModuleLevelException], both outside it *)
Definition run_test (env : Env) (t : Case * outcome) : M unit :=
  match t.2 with
  | Failure _ | Error _ => testPartExecutor (report env t)
  | _ => report env t
  end.

(** the callbacks of a suite, one test after the other; an exception that
    comes out of one is caught nowhere and ends the run *)
Fixpoint run_suite (env : Env) (suite : list (Case * outcome)) : M unit :=
  match suite with
  | [] => mret tt
  | t :: suite' => run_test env t;; run_suite env suite'
  end.

Section NeotestDjangoRunner.

(** Django's discovery: the tests of a list of labels with what running
    each of them gives.  What discovery itself puts in [sys.path] is not
    followed: [sys_path] is the list as the adapter writes it. *)
Variable build_suite : list string → list (Case * outcome).

Variable env : Env.

(** [NeotestDjangoRunner.suite_result]: [result.neo_results] *)
Definition suite_result : M (gmap string pyval) := gets neo_results.

(** [DiscoverRunner.run_tests(test_labels)] with the result class and
    the [suite_result] of [NeotestDjangoRunner] *)
Definition run_tests (test_labels : list string) : M (gmap string pyval) :=
  init;;
  run_suite env (build_suite test_labels);;
  suite_result.

(** [DjangoNeotestAdapter.run]; [django.setup()] changes nothing here. *)
Definition run (args : list string) : M (gmap string pyval) :=
  (* Make sure we can import relative to current path *)
  modify (set_sys_path (λ p, getcwd env :: p));;
  (* We only get a single case ID as the argument *)
  case ← lift (index_last args);
  labels ← lift (id_to_unittest_args env case);
  let argv := take 1 (sys_argv env) ++ labels in
  label ← lift (index argv 1);
  run_tests [label].

End NeotestDjangoRunner.

(** ** The Result Record of the specification

    [{status: one of {PASSED, FAILED}, errors: list of {message: nullable
    string, line: nullable integer}, short: nullable string}], as a check on
    a Python value. *)

Definition nullable_string (v : pyval) : bool :=
  match v with PNone | PStr _ => true | _ => false end.

Definition nullable_integer (v : pyval) : bool :=
  match v with PNone | PInt _ => true | _ => false end.

Definition is_status (v : pyval) : bool :=
  match v with PStatus _ => true | _ => false end.

Definition is_error_entry (v : pyval) : bool :=
  match dict_get "message" v, dict_get "line" v with
  | Some m, Some l => nullable_string m && nullable_integer l
  | _, _ => false
  end.

Definition is_result_record (v : pyval) : bool :=
  match dict_get "status" v, dict_get "errors" v, dict_get "short" v with
  | Some s, Some (PList es), Some sh =>
      is_status s && forallb is_error_entry es && nullable_string sh
  | _, _, _ => false
  end.

(** ** The layout of a project

    A clean absolute path is ["/"] and names joined by ["/"]; a test file
    [stem.ext] lies below the working directory, through the directories
    [dirs]. *)

Section Layout.
Import PyStr.

(** a name of a directory entry *)
Definition is_name (x : string) : bool :=
  negb (bool_decide (x = "")) && negb (bool_decide (x = "."))
  && negb (bool_decide (x = "..")) && negb (contains "/" x).

(** the absolute path of the names [l] *)
Definition rooted (l : list string) : string := "/" +:+ join "/" l.

(** a string with only dots in it *)
Fixpoint only_dots (s : string) : bool :=
  match s with
  | EmptyString => true
  | String c s' => bool_decide (c = "."%char) && only_dots s'
  end.

(** the path of the file [stem.ext] in the directories [dirs] below the
    working directory *)
Definition test_path (env : Env) (dirs : list string) (stem ext : string)
    : string :=
  getcwd env +:+ "/" +:+ join "/" (dirs ++ [stem +:+ "." +:+ ext]).

End Layout.

(** ** A project, a test of it and a traceback, for the scenarios *)

Module Scenario.

Definition env : Env :=
  {| getcwd := "/proj";
     fs := λ p, if bool_decide (p = "/proj/tests/test_foo.py")
                then Some S_IFREG
                else if bool_decide (p = "/proj/tests")
                then Some S_IFDIR else None;
     sys_argv := ["neotest.py"] |}.

Definition test : Case :=
  {| module_file := "/proj/tests/test_foo.py";
     class_name := "FooTest";
     is_TestCase := true;
     testMethodName := "test_bar" |}.

(** [test_bar], line 42 of the test file, calls a library that raises *)
Definition err : exc_info :=
  [ {| filename := "/usr/lib/python3/unittest/case.py";
       lineno := 579; name := "_callTestMethod" |};
    {| filename := "/proj/tests/test_foo.py";
       lineno := 42; name := "test_bar" |};
    {| filename := "/proj/app/models.py";
       lineno := 7; name := "save" |} ].

(** the same failure seen from library code only *)
Definition err_library : exc_info :=
  [ {| filename := "/usr/lib/python3/unittest/case.py";
       lineno := 579; name := "_callTestMethod" |};
    {| filename := "/proj/app/models.py";
       lineno := 7; name := "save" |} ].



(** a level of unittest's [case.py] *)
Definition unittest_level (line : Z) (function : string) : traceback_level :=
  {| tb_frame := {| filename := "/usr/lib/python3/unittest/case.py";
                    lineno := line; name := function |};
     tb_unittest := true |}.

(** a level of a module that is not unittest's *)
Definition user_level (file : string) (line : Z) (function : string)
    : traceback_level :=
  {| tb_frame := {| filename := file; lineno := line; name := function |};
     tb_unittest := false |}.

(** [test_bar] fails an assertion at line 42 of the test file *)
Definition failure : failure_info :=
  {| exact_failureException := true;
     tb_levels :=
       [ unittest_level 579 "_callTestMethod";
         user_level "/proj/tests/test_foo.py" 42 "test_bar";
         unittest_level 845 "assertEqual";
         unittest_level 838 "_baseAssertEqual" ] |}.

(** an assertion fails in a test method the class inherits from another
    file *)
Definition failure_library : failure_info :=
  {| exact_failureException := true;
     tb_levels :=
       [ unittest_level 579 "_callTestMethod";
         user_level "/proj/tests/base.py" 12 "test_bar";
         unittest_level 703 "fail" ] |}.



(** a test module in a directory whose name has the separator in it *)
Definition test_colons : Case :=
  {| module_file := "/proj/a::b/test_foo.py";
     class_name := "FooTest";
     is_TestCase := true;
     testMethodName := "test_bar" |}.

Definition st : state :=
  {| sys_path := ["/usr/lib/python3"]; neo_results := ∅; streamed := [] |}.

(** a discovery that finds [test] passing under its dotted label *)
Definition build_suite (labels : list string) : list (Case * outcome) :=
  if bool_decide (labels = ["tests.test_foo.FooTest.test_bar"])
  then [(test, Success)] else [].

End Scenario.

(** ** Reading the statements *)

(** the state after a record was stored under [id] and streamed *)
Definition emitted (id : string) (record : pyval) (st : state) : state :=
  set_streamed (λ calls, calls ++ [(id, record)])
    (set_neo_results (insert id record) st).

(** unfolds the sequencing of statements *)
Ltac unfold_M :=
  unfold mbind, mret, M_bind, M_ret, lift, modify, gets, getitem, stream,
    result_bind, result_ret, rbind in *.

(** ** Reading a run *)

(** the record of the last call of [stream] under [key] *)
Fixpoint last_streamed (key : string) (calls : list (string * pyval))
    : option pyval :=
  match calls with
  | [] => None
  | (k, v) :: calls' =>
      match last_streamed key calls' with
      | Some v' => Some v'
      | None => if bool_decide (k = key) then Some v else None
      end
  end.

(** a mapping after the calls were stored over it *)
Definition stored_over (m : gmap string pyval) (calls : list (string * pyval))
    (key : string) : option pyval :=
  match last_streamed key calls with
  | Some v => Some v
  | None => m !! key
  end.

(** a test the interceptor hears of: its callback is overridden *)
Definition reported (t : Case * outcome) : bool :=
  match t.2 with
  | Other => false
  | _ => true
  end.

(** the status the interceptor gives an outcome it hears of *)
Definition status_of (o : outcome) : NeotestResultStatus :=
  match o with
  | Success => PASSED
  | _ => FAILED
  end.

(** the frames of a failure the interceptor extracts: those
    [super().addFailure] has left *)
Definition frames_left (err : failure_info) : exc_info :=
  extract_tb (tb_levels (TestResult_addFailure err)).


(** the frames the interceptor searches for an outcome *)
Definition frames_searched (o : outcome) : option exc_info :=
  match o with
  | Failure err => Some (frames_left err)
  | Error err | ClassOrModuleError err => Some err
  | _ => None
  end.

(** the traceback the interceptor extracts for a failure or an error has a
    frame of the test's own file *)
Definition locatable (env : Env) (t : Case * outcome) : bool :=
  match frames_searched t.2 with
  | Some summary =>
      bool_decide (Exists (λ frame, filename frame = case_file env t.1)
                     summary)
  | None => true
  end.

(** the exception that ends the run at a test that cannot be located: the
    [StopIteration] of the search, as it leaves the callback's caller *)
Definition stops_with (o : outcome) : exn :=
  match o with
  | Failure _ | Error _ => RuntimeError
  | _ => StopIteration
  end.


(** a process started without a program name *)
Definition env_no_argv : Env :=
  {| getcwd := getcwd Scenario.env;
     fs := fs Scenario.env;
     sys_argv := [] |}.


(** a suite that reports the same test twice *)
Definition suite_twice : list (Case * outcome) :=
  [(Scenario.test, Failure Scenario.failure);
   (Scenario.test_colons, Other);
   (Scenario.test, Success)].


(** the scenario's project with no file in it *)
Definition env_no_files : Env :=
  {| getcwd := getcwd Scenario.env;
     fs := λ _, None;
     sys_argv := sys_argv Scenario.env |}.

(** the scenario's test, its module loaded through a relative path *)
Definition test_relative_module : Case :=
  {| module_file := "tests/./test_foo.py";
     class_name := "FooTest";
     is_TestCase := true;
     testMethodName := "test_bar" |}.

(** two methods of a class of the scenario's file that is not a Django
    [TestCase] *)
Definition test_plain_bar : Case :=
  {| module_file := "/proj/tests/test_foo.py";
     class_name := "PlainTest";
     is_TestCase := false;
     testMethodName := "test_bar" |}.

Definition test_plain_baz : Case :=
  {| module_file := "/proj/tests/test_foo.py";
     class_name := "PlainTest";
     is_TestCase := false;
     testMethodName := "test_baz" |}.

(** the scenario's project with a package named as the test module *)
Definition env_package : Env :=
  {| getcwd := getcwd Scenario.env;
     fs := λ p, if bool_decide (p = "/proj/tests/test_foo/FooTest.py")
                then Some S_IFREG else fs Scenario.env p;
     sys_argv := sys_argv Scenario.env |}.

(** * Properties *)

#[local] Arguments String.append !_ _ / : simpl nomatch.
#[local] Arguments PyStr.startswith : simpl never.

(** ** The statements of the interceptor *)

Lemma getitem_insert (key : string) (v : pyval) (st : state) :
  getitem key (set_neo_results (insert key v) st)
  = (Ok v, set_neo_results (insert key v) st).
Proof.
  unfold getitem. simpl. by rewrite lookup_insert_eq.
Qed.

Lemma emitted_streamed id record st :
  streamed (emitted id record st) = streamed st ++ [(id, record)].
Proof. reflexivity. Qed.

Lemma emitted_neo_results id record st :
  neo_results (emitted id record st) = <[id := record]> (neo_results st).
Proof. reflexivity. Qed.

Lemma emitted_lookup id record st :
  neo_results (emitted id record st) !! id = Some record.
Proof. rewrite emitted_neo_results. apply lookup_insert_eq. Qed.

Lemma addSuccess_eq env test st :
  addSuccess env test st
  = (Ok tt, emitted (case_id env test) passed_record st).
Proof.
  unfold addSuccess. unfold_M. simpl.
  pose proof (getitem_insert (case_id env test) passed_record st) as H.
  unfold getitem in H. simpl in H. by rewrite H.
Qed.

Lemma addError_eq env test err st :
  addError env test err st =
  match next (error_lines (case_file env test) err) with
  | Ok line => (Ok tt, emitted (case_id env test) (failed_record line) st)
  | Raise e => (Raise e, st)
  end.
Proof.
  unfold addError. unfold_M.
  destruct (next _) as [line|e]; [|done]. simpl.
  pose proof (getitem_insert (case_id env test) (failed_record line) st) as H.
  unfold getitem in H. simpl in H. by rewrite H.
Qed.

(** [addFailure] is [addError] on the frames [super().addFailure] left *)
Lemma addFailure_addError env test err st :
  addFailure env test err st = addError env test (frames_left err) st.
Proof. reflexivity. Qed.

Lemma addFailure_eq env test err st :
  addFailure env test err st =
  match next (error_lines (case_file env test) (frames_left err)) with
  | Ok line => (Ok tt, emitted (case_id env test) (failed_record line) st)
  | Raise e => (Raise e, st)
  end.
Proof. rewrite addFailure_addError. apply addError_eq. Qed.

Lemma report_eq env test o st :
  report env (test, o) st =
  match o with
  | Success => (Ok tt, emitted (case_id env test) passed_record st)
  | Other => (Ok tt, st)
  | _ =>
      match next (error_lines (case_file env test)
                    (default [] (frames_searched o))) with
      | Ok line => (Ok tt, emitted (case_id env test) (failed_record line) st)
      | Raise e => (Raise e, st)
      end
  end.
Proof.
  destruct o as [|err|err|err|].
  - apply addSuccess_eq.
  - apply addFailure_eq.
  - apply addError_eq.
  - apply addError_eq.
  - done.
Qed.

Lemma run_suite_app env suite1 suite2 st :
  run_suite env (suite1 ++ suite2) st =
  match run_suite env suite1 st with
  | (Ok _, st1) => run_suite env suite2 st1
  | (Raise e, st1) => (Raise e, st1)
  end.
Proof.
  revert st. induction suite1 as [|t suite1 IH]; intros st; [done|].
  simpl. unfold_M.
  destruct (run_test env t st) as [[[]|e] st1]; [apply IH | done].
Qed.

(** ** The traceback [super().addFailure] leaves *)

Lemma usercode_levels_prefix tb :
  ∃ rest, tb = usercode_levels tb ++ rest.
Proof.
  induction tb as [|level tb [rest IH]]; [by exists []|]. simpl.
  destruct (is_relevant_tb_level level).
  - by eexists.
  - exists rest. simpl. by rewrite <- IH.
Qed.

Lemma remove_unittest_tb_frames_prefix tb :
  ∃ rest, tb = remove_unittest_tb_frames tb ++ rest.
Proof.
  unfold remove_unittest_tb_frames.
  destruct (usercode_levels tb) as [|level usercode] eqn:H.
  - exists []. by rewrite app_nil_r.
  - rewrite <- H. apply usercode_levels_prefix.
Qed.

(** what is left is the beginning of what there was *)
Lemma clean_tracebacks_prefix exact tb :
  ∃ cut, tb = clean_tracebacks exact tb ++ cut.
Proof.
  induction tb as [|level tb [cut IH]]; [by exists []|]. simpl.
  destruct (is_relevant_tb_level level).
  - exists cut. simpl. by rewrite <- IH.
  - destruct exact.
    + apply remove_unittest_tb_frames_prefix.
    + exists []. by rewrite app_nil_r.
Qed.



Lemma frames_left_prefix err :
  ∃ cut, extract_tb (tb_levels err) = frames_left err ++ cut.
Proof.
  destruct (clean_tracebacks_prefix (exact_failureException err)
              (tb_levels err)) as [cut H].
  exists (extract_tb cut). unfold frames_left, extract_tb. simpl.
  by rewrite <- fmap_app, <- H.
Qed.


(** ** The frames of a traceback *)

Lemma filter_none {A} (P : A → Prop) `{∀ x, Decision (P x)} (l : list A) :
  Forall (λ x, ¬ P x) l → filter P l = [].
Proof.
  induction 1 as [|x l Hx _ IH]; [done|]. by rewrite filter_cons_False.
Qed.

Lemma error_lines_innermost file pre frame post :
  filename frame = file →
  Forall (λ f, filename f ≠ file) post →
  next (error_lines file (pre ++ frame :: post)) = Ok (lineno frame - 1)%Z.
Proof.
  intros Hf Hpost. unfold error_lines.
  rewrite reverse_app, reverse_cons, !filter_app.
  rewrite (filter_none _ (reverse post)) by by apply Forall_reverse.
  simpl. by rewrite filter_cons_True.
Qed.

Lemma error_lines_no_match file err :
  Forall (λ f, filename f ≠ file) err →
  next (error_lines file err) = Raise StopIteration.
Proof.
  intros H. unfold error_lines.
  rewrite (filter_none _ (reverse err)); [done|]. by apply Forall_reverse.
Qed.

(** the last item of a list that has a property splits the list *)
Lemma Exists_last_split {A} (P : A → Prop) `{∀ x, Decision (P x)} (l : list A) :
  Exists P l →
  ∃ pre x post, l = pre ++ x :: post ∧ P x ∧ Forall (λ y, ¬ P y) post.
Proof.
  induction l as [|y l IH] using rev_ind; intros HE.
  - by apply Exists_nil in HE.
  - destruct (decide (P y)) as [Hy|Hy].
    + exists l, y, []. by repeat split.
    + apply Exists_app in HE as [HE|HE].
      * destruct (IH HE) as (pre & x & post & -> & Hx & Hpost).
        exists pre, x, (post ++ [y]). repeat split; [|done|].
        -- by rewrite <- app_assoc.
        -- apply Forall_app. split; [done|]. by apply Forall_singleton.
      * apply Exists_cons in HE as [?|HE]; [done|]. by apply Exists_nil in HE.
Qed.

(** ** [str.split], [str.join] and [in] *)

Section PyStrFacts.
Import PyStr.

Lemma prefix_nil s : String.prefix "" s = true.
Proof. by destruct s. Qed.

Lemma prefix_cons d p c s :
  String.prefix (String d p) (String c s)
  = if ascii_dec d c then String.prefix p s else false.
Proof. reflexivity. Qed.

Lemma startswith_app s p :
  startswith s p = true ↔ ∃ r, s = p +:+ r.
Proof.
  unfold startswith. revert s.
  induction p as [|d p IH]; intros s.
  - rewrite prefix_nil. split; [|done]. intros _. by exists s.
  - destruct s as [|c s].
    + split; [done|]. by intros [r ?].
    + rewrite prefix_cons. destruct (ascii_dec d c) as [->|Hne].
      * rewrite IH. split; intros [r Hr]; exists r; simpl in *; congruence.
      * split; [done|]. intros [r Hr]. simpl in Hr. congruence.
Qed.

Lemma startswith_nil_l p : startswith "" p = true → p = "".
Proof. by destruct p. Qed.

Lemma contains_app sub s :
  contains sub s = true ↔ ∃ a b, s = a +:+ sub +:+ b.
Proof.
  induction s as [|c s IH]; simpl.
  - rewrite orb_false_r, startswith_app. split.
    + intros [r Hr]. by exists "", r.
    + intros (a & b & Hab). destruct a; [by exists b|done].
  - rewrite orb_true_iff, IH, startswith_app. split.
    + intros [[r Hr]|(a & b & Hab)].
      * by exists "", r.
      * exists (String c a), b. simpl. by rewrite Hab.
    + intros (a & b & Hab). destruct a as [|c' a]; simpl in Hab.
      * left. by exists b.
      * right. exists a, b. congruence.
Qed.

Lemma split_go_nonempty sep k s : split_go sep k s ≠ [].
Proof.
  revert k. induction s as [|c s IH]; intros k; simpl; [done|].
  destruct k; [|apply IH].
  destruct (startswith _ _); [done|]. by destruct (split_go sep 0 s).
Qed.

Lemma split_nonempty sep s : split sep s ≠ [].
Proof. apply split_go_nonempty. Qed.

(** a string without the separator is its own single piece *)
Lemma split_no_sep sep s :
  contains sep s = false → split sep s = [s].
Proof.
  unfold split. induction s as [|c s IH]; simpl; [done|].
  intros [Hs Hc]%orb_false_iff. rewrite Hs, IH; done.
Qed.

(** a string with the separator in it has a second piece *)
Lemma split_with_sep sep s :
  sep ≠ "" → contains sep s = true →
  ∃ path child child_ids, split sep s = path :: child :: child_ids.
Proof.
  intros Hsep. unfold split. induction s as [|c s IH]; simpl.
  - rewrite orb_false_r. intros H%startswith_nil_l. done.
  - destruct (startswith (String c s) sep) eqn:Hs; simpl.
    + intros _.
      destruct (split_go sep (String.length sep - 1) s) as [|x xs] eqn:E.
      * by apply split_go_nonempty in E.
      * by exists "", x, xs.
    + intros H. destruct (IH H) as (w & x & xs & ->).
      by exists (String c w), x, xs.
Qed.

Lemma slice_from_app p r : slice_from (String.length p) (p +:+ r) = r.
Proof. induction p; simpl; [by destruct r|done]. Qed.

Lemma join_cons_cons sep x y l :
  join sep (x :: y :: l) = x +:+ sep +:+ join sep (y :: l).
Proof. reflexivity. Qed.

Lemma join_String sep c w ws :
  join sep (String c w :: ws) = String c (join sep (w :: ws)).
Proof. by destruct ws. Qed.

(** joining the pieces with the separator gives the string back *)
Lemma join_split_go sep k s :
  sep ≠ "" → join sep (split_go sep k s) = slice_from k s.
Proof.
  intros Hsep. revert k. induction s as [|c s IH]; intros k.
  - by destruct k.
  - destruct k as [|k]; simpl; [|apply IH].
    destruct (startswith (String c s) sep) eqn:Hs.
    + destruct (split_go sep (String.length sep - 1) s) as [|x xs] eqn:E.
      { by apply split_go_nonempty in E. }
      rewrite join_cons_cons, <- E, IH. simpl.
      apply startswith_app in Hs as [r Hr].
      destruct sep as [|d sep]; [done|]. simpl in *.
      injection Hr as -> ->. rewrite Nat.sub_0_r, slice_from_app. done.
    + specialize (IH 0). destruct (split_go sep 0 s) as [|w ws] eqn:E.
      { by apply split_go_nonempty in E. }
      rewrite join_String, IH. by destruct s.
Qed.

Lemma join_split sep s : sep ≠ "" → join sep (split sep s) = s.
Proof.
  intros Hsep. unfold split. rewrite join_split_go by done. by destruct s.
Qed.

(** the first piece is empty exactly when the string is empty or begins
    with the separator *)
Lemma split_head_empty sep s l :
  sep ≠ "" → split sep s = "" :: l → s = "" ∨ startswith s sep = true.
Proof.
  intros Hsep. unfold split. destruct s as [|c s]; simpl; [by left|].
  destruct (startswith (String c s) sep); [by right|].
  by destruct (split_go sep 0 s).
Qed.

Lemma split_startswith sep s :
  sep ≠ "" → startswith s sep = true →
  ∃ child child_ids, split sep s = "" :: child :: child_ids.
Proof.
  intros Hsep Hs. unfold split. destruct s as [|c s]; simpl.
  - by apply startswith_nil_l in Hs.
  - rewrite Hs.
    destruct (split_go sep (String.length sep - 1) s) as [|x xs] eqn:E.
    + by apply split_go_nonempty in E.
    + by exists x, xs.
Qed.

Lemma startswith_contains sep s :
  startswith s sep = true → contains sep s = true.
Proof. intros H. destruct s; simpl; by rewrite H. Qed.

(** *** The separator of case identifiers *)

(** a piece without ["::"] that does not end in [":"] is cut off whole *)
Lemma split_colons_piece e rest :
  contains "::" e = false → endswith e ":" = false →
  split "::" (e +:+ "::" +:+ rest) = e :: split "::" rest.
Proof.
  unfold split. induction e as [|c e IH]; intros Hc He.
  - simpl. by destruct rest.
  - simpl in Hc, He. apply orb_false_iff in Hc as [Hs Hc].
    apply orb_false_iff in He as [Hne He].
    apply bool_decide_eq_false in Hne.
    assert (startswith (String c (e +:+ "::" +:+ rest)) "::" = false) as Hs'.
    { apply not_true_is_false. intros [r Hr]%startswith_app.
      simpl in Hr. injection Hr as -> Hr. destruct e as [|d e].
      - done.
      - simpl in Hr. injection Hr as -> Hr.
        assert (startswith (String ":" (String ":" e)) "::" = true);
          [|congruence].
        apply startswith_app. by exists e. }
    change (String c e +:+ "::" +:+ rest) with (String c (e +:+ "::" +:+ rest)).
    simpl in Hs', IH |- *. rewrite Hs', IH; done.
Qed.

Lemma removelast_cons_cons {A} (x y : A) l :
  removelast (x :: y :: l) = x :: removelast (y :: l).
Proof. reflexivity. Qed.

(** sufficient: splitting a joined list gives the list back *)
Lemma split_join_colons elems :
  elems ≠ [] →
  Forall (λ e, contains "::" e = false) elems →
  Forall (λ e, endswith e ":" = false) (removelast elems) →
  split "::" (join "::" elems) = elems.
Proof.
  induction elems as [|e elems IH]; [done|]. intros _ Hc He.
  apply Forall_cons in Hc as [Hc Hcs]. destruct elems as [|e' elems].
  - by apply split_no_sep.
  - rewrite removelast_cons_cons in He. apply Forall_cons in He as [He Hes].
    rewrite join_cons_cons, split_colons_piece, IH; done.
Qed.

(** necessary: no piece of a split has ["::"] in it, and only the last
    piece may end in [":"] *)
Lemma split_go_colons_pieces k s :
  Forall (λ e, contains "::" e = false) (split_go "::" k s)
  ∧ Forall (λ e, endswith e ":" = false) (removelast (split_go "::" k s)).
Proof.
  revert k. induction s as [|c s IH]; intros k.
  - simpl. split; [by apply Forall_singleton | by apply Forall_nil].
  - destruct k as [|k]; simpl; [|apply IH].
    destruct (startswith (String c s) "::") eqn:Hs.
    + destruct (IH 1) as [H1 H2].
      destruct (split_go "::" 1 s) as [|x xs] eqn:E.
      { by apply split_go_nonempty in E. }
      rewrite removelast_cons_cons. split; by apply Forall_cons.
    + destruct (IH 0) as [H1 H2].
      pose proof (join_split_go "::" 0 s) as Hj.
      destruct (split_go "::" 0 s) as [|w ws] eqn:E.
      { by apply split_go_nonempty in E. }
      apply Forall_cons in H1 as [Hw Hws].
      assert (s = join "::" (w :: ws)) as Hs'.
      { rewrite Hj by done. by destruct s. }
      split.
      * apply Forall_cons. split; [|done]. simpl. rewrite Hw, orb_false_r.
        apply not_true_is_false. intros [r Hr]%startswith_app.
        simpl in Hr. injection Hr as -> ->.
        assert (startswith (String ":" s) "::" = true); [|congruence].
        apply startswith_app. rewrite Hs'. destruct ws as [|x xs].
        -- by exists r.
        -- rewrite join_cons_cons.
           by exists (r +:+ "::" +:+ join "::" (x :: xs)).
      * destruct ws as [|x xs]; [by apply Forall_nil|].
        rewrite removelast_cons_cons in H2 |- *.
        apply Forall_cons in H2 as [He Hes].
        apply Forall_cons. split; [|done]. simpl. rewrite He, orb_false_r.
        apply bool_decide_eq_false. intros [= -> ->].
        assert (startswith (String ":" s) "::" = true); [|congruence].
        apply startswith_app. rewrite Hs', join_cons_cons.
        by exists (":" +:+ join "::" (x :: xs)).
Qed.

(** splitting a joined list gives the list back exactly when no element
    has ["::"] in it and none but the last ends in [":"] *)
Lemma split_join_colons_iff elems :
  elems ≠ [] →
  split "::" (join "::" elems) = elems
  ↔ Forall (λ e, contains "::" e = false) elems
    ∧ Forall (λ e, endswith e ":" = false) (removelast elems).
Proof.
  intros Hne. split.
  - intros H. pose proof (split_go_colons_pieces 0 (join "::" elems)) as Hp.
    unfold split in H. by rewrite H in Hp.
  - intros [Hc He]. by apply split_join_colons.
Qed.

End PyStrFacts.

(** ** [os.path] and the translation of identifiers *)

Section IdentifierFacts.
Import PyStr PosixPath.

Lemma relpath_returns env path start :
  path ≠ "" → ∃ relative_file, relpath env path start = Ok relative_file.
Proof.
  intros Hp. unfold relpath. rewrite bool_decide_eq_false_2 by done.
  destruct (bool_decide _); eauto.
Qed.

Lemma isfile_nonempty env path : isfile env path = true → path ≠ "".
Proof.
  unfold isfile, os_stat. intros H ->. by rewrite bool_decide_eq_true_2 in H.
Qed.

Lemma slice_to_from n p : slice_to n p +:+ slice_from n p = p.
Proof.
  revert n. induction p as [|c p IH]; intros [|n]; simpl; try done.
  unfold String.app. simpl. by rewrite IH.
Qed.

(** the two parts [splitext] returns make up the path *)
Lemma splitext_app p : (splitext p).1 +:+ (splitext p).2 = p.
Proof.
  unfold splitext. destruct (_ <? _)%Z.
  - generalize (Z.to_nat (rfind "/" p + 1)).
    generalize (Z.to_nat (rfind "." p)) as d.
    induction (Z.to_nat _) as [|n IH]; intros d f; simpl.
    + induction p; simpl; [done|]. unfold String.app in *. simpl. congruence.
    + destruct (negb _); [apply slice_to_from | apply IH].
  - simpl. induction p; simpl; [done|]. unfold String.app in *. simpl.
    congruence.
Qed.

(** no occurrence of [old] is left where it was replaced by a character
    that is not its first *)
Lemma replace_char_gone (c d : ascii) s :
  c ≠ d →
  contains (String c "") (replace (String c "") (String d "") s) = false.
Proof.
  intros Hne. unfold replace. induction s as [|a s IH]; [done|].
  simpl. unfold startswith. rewrite prefix_cons.
  destruct (ascii_dec c a) as [->|Hca].
  - rewrite prefix_nil. simpl. unfold startswith. rewrite prefix_cons.
    destruct (ascii_dec a d); [done|]. by rewrite IH.
  - simpl. unfold startswith. rewrite prefix_cons.
    destruct (ascii_dec c a); [done|]. by rewrite IH.
Qed.

(** the dotted module path of a relative file *)
Lemma id_to_unittest_args_no_children env case_id :
  contains "::" case_id = false →
  id_to_unittest_args env case_id =
  if isfile env case_id
  then relative_file ← relpath env case_id (getcwd env);
       Ok [replace "/" "." (splitext relative_file).1]
  else Ok [case_id].
Proof.
  intros Hsep. unfold id_to_unittest_args. rewrite split_no_sep by done.
  by rewrite bool_decide_eq_true_2.
Qed.

Lemma id_to_unittest_args_children env case_id path child child_ids :
  split "::" case_id = path :: child :: child_ids →
  id_to_unittest_args env case_id =
  relative_file ← relpath env path (getcwd env);
  Ok [join "." (replace "/" "." (splitext relative_file).1
                :: child :: child_ids)].
Proof.
  intros Hsplit. unfold id_to_unittest_args. rewrite Hsplit.
  by rewrite bool_decide_eq_false_2.
Qed.

Lemma relpath_empty env start : relpath env "" start = Raise ValueError.
Proof. reflexivity. Qed.

(** the path before the first ["::"] is empty only when the identifier
    begins with ["::"] *)
Lemma split_colons_path case_id path child child_ids :
  split "::" case_id = path :: child :: child_ids →
  path = "" ↔ startswith case_id "::" = true.
Proof.
  intros Hsplit. split.
  - intros ->.
    destruct (split_head_empty "::" case_id _ ltac:(done) Hsplit) as [-> | Hs];
      [discriminate Hsplit | done].
  - intros Hs. destruct (split_startswith "::" case_id) as (? & ? & H);
      [done..|]. congruence.
Qed.

End IdentifierFacts.

(** ** A test file below the working directory *)

Section LayoutFacts.
Import PyStr PosixPath.

Lemma str_app_nil_r s : s +:+ "" = s.
Proof. induction s; simpl; congruence. Qed.

Lemma str_app_assoc s1 s2 s3 : (s1 +:+ s2) +:+ s3 = s1 +:+ s2 +:+ s3.
Proof. induction s1; simpl; congruence. Qed.

Lemma str_length_app s1 s2 :
  String.length (s1 +:+ s2) = String.length s1 + String.length s2.
Proof. induction s1; simpl; congruence. Qed.

Lemma contains_cons sub c s :
  contains sub (String c s) = false → contains sub s = false.
Proof. simpl. by intros [_ ?]%orb_false_iff. Qed.

Lemma startswith_char c d s :
  startswith (String d s) (String c "") = bool_decide (c = d).
Proof.
  unfold startswith. rewrite prefix_cons, prefix_nil.
  destruct (ascii_dec c d);
    [by rewrite bool_decide_eq_true_2 | by rewrite bool_decide_eq_false_2].
Qed.

(** a piece without the separating character is cut off whole *)
Lemma split_char_piece c x rest :
  contains (String c "") x = false →
  split (String c "") (x +:+ String c rest) = x :: split (String c "") rest.
Proof.
  unfold split. induction x as [|d x IH]; intros Hx.
  - simpl. rewrite startswith_char, bool_decide_eq_true_2 by done. done.
  - simpl in Hx. apply orb_false_iff in Hx as [Hd Hx].
    rewrite startswith_char in Hd. simpl.
    rewrite startswith_char, Hd, IH by done. done.
Qed.

Lemma join_app sep l1 l2 :
  l1 ≠ [] → l2 ≠ [] →
  join sep (l1 ++ l2) = join sep l1 +:+ sep +:+ join sep l2.
Proof.
  intros H1 H2. induction l1 as [|x l1 IH]; [done|].
  destruct l1 as [|y l1].
  - destruct l2; [done|]. done.
  - change (join sep ((x :: y :: l1) ++ l2))
      with (x +:+ sep +:+ join sep ((y :: l1) ++ l2)).
    rewrite IH, join_cons_cons by done. by rewrite !str_app_assoc.
Qed.

Lemma split_join_char c l :
  l ≠ [] → Forall (λ x, contains (String c "") x = false) l →
  split (String c "") (join (String c "") l) = l.
Proof.
  induction l as [|x l IH]; [done|]. intros _ [Hx Hl]%Forall_cons.
  destruct l as [|y l].
  - by apply split_no_sep.
  - rewrite join_cons_cons.
    change (String c "" +:+ join (String c "") (y :: l))
      with (String c (join (String c "") (y :: l))).
    rewrite split_char_piece, IH; done.
Qed.

(** *** [normpath] and [relpath] on a clean absolute path *)

Lemma is_name_spec x :
  is_name x = true ↔ x ≠ "" ∧ x ≠ "." ∧ x ≠ ".." ∧ contains "/" x = false.
Proof.
  unfold is_name. rewrite !andb_true_iff, !negb_true_iff, !bool_decide_eq_false.
  tauto.
Qed.

Lemma normpath_step_name n acc x :
  is_name x = true → normpath_step n acc x = acc ++ [x].
Proof.
  intros (H1 & H2 & H3 & _)%is_name_spec. unfold normpath_step, curdir, pardir.
  rewrite (bool_decide_eq_false_2 (x = "")),
    (bool_decide_eq_false_2 (x = ".")),
    (bool_decide_eq_false_2 (x = "..")) by done.
  done.
Qed.

Lemma normpath_fold_names n acc l :
  Forall (λ x, is_name x = true) l →
  fold_left (normpath_step n) l acc = acc ++ l.
Proof.
  revert acc. induction l as [|x l IH]; intros acc Hl; simpl.
  - by rewrite app_nil_r.
  - apply Forall_cons in Hl as [Hx Hl].
    rewrite normpath_step_name, IH by done. by rewrite <- app_assoc.
Qed.

Lemma names_no_sep l :
  Forall (λ x, is_name x = true) l →
  Forall (λ x, contains "/" x = false) l.
Proof.
  intros H. eapply Forall_impl; [exact H|].
  by intros x (_ & _ & _ & Hx)%is_name_spec.
Qed.

Lemma names_nonempty l :
  Forall (λ x, is_name x = true) l → filter (λ x, x ≠ "") l = l.
Proof.
  induction 1 as [|x l Hx _ IH]; [done|].
  apply is_name_spec in Hx as (Hx & _). by rewrite filter_cons_True, IH.
Qed.

Lemma split_rooted l :
  l ≠ [] → Forall (λ x, is_name x = true) l →
  split "/" (rooted l) = "" :: l.
Proof.
  intros Hne Hl. unfold rooted.
  change ("/" +:+ join "/" l) with ("" +:+ String "/" (join "/" l)).
  rewrite split_char_piece by done.
  by rewrite split_join_char by auto using names_no_sep.
Qed.

Lemma rooted_one_slash x l :
  is_name x = true → startswith (rooted (x :: l)) "//" = false.
Proof.
  intros (Hx & _ & _ & Hs)%is_name_spec. apply not_true_is_false.
  intros [r Hr]%startswith_app. unfold rooted in Hr.
  destruct x as [|c x]; [done|]. rewrite join_String in Hr.
  simpl in Hr. injection Hr as -> _. simpl in Hs.
  by rewrite startswith_char, bool_decide_eq_true_2 in Hs.
Qed.

Lemma normpath_rooted l :
  l ≠ [] → Forall (λ x, is_name x = true) l →
  normpath (rooted l) = rooted l.
Proof.
  intros Hne Hl. unfold normpath.
  rewrite bool_decide_eq_false_2 by done.
  assert (startswith (rooted l) sep = true) as ->.
  { apply startswith_app. by eexists. }
  assert (startswith (rooted l) (sep +:+ sep) = false) as ->.
  { destruct l as [|x l]; [done|]. apply Forall_cons in Hl as [Hx _].
    by apply rooted_one_slash. }
  simpl andb. cbv iota. rewrite split_rooted by done. simpl fold_left.
  rewrite normpath_fold_names by done. simpl app.
  by rewrite bool_decide_eq_false_2.
Qed.

Lemma components_rooted l :
  l ≠ [] → Forall (λ x, is_name x = true) l →
  components (rooted l) = l.
Proof.
  intros Hne Hl. unfold components, sep. rewrite split_rooted by done.
  rewrite filter_cons_False by (by intros ?). by apply names_nonempty.
Qed.

Lemma commonprefix_len_app l1 l2 :
  commonprefix_len l1 (l1 ++ l2) = length l1.
Proof.
  induction l1 as [|x l1 IH]; simpl; [by destruct l2|].
  by rewrite bool_decide_eq_true_2, IH.
Qed.

Lemma rooted_app l1 l2 :
  l1 ≠ [] → l2 ≠ [] → rooted (l1 ++ l2) = rooted l1 +:+ "/" +:+ join "/" l2.
Proof.
  intros H1 H2. unfold rooted. by rewrite join_app.
Qed.

(** the path of a file below the working directory, relative to it, is
    the names that lead from the directory to the file *)
Lemma relpath_below env cs ds :
  cs ≠ [] → ds ≠ [] →
  Forall (λ x, is_name x = true) cs →
  Forall (λ x, is_name x = true) ds →
  getcwd env = rooted cs →
  relpath env (getcwd env +:+ "/" +:+ join "/" ds) (getcwd env)
  = Ok (join "/" ds).
Proof.
  intros Hcs Hds Hc Hd Hcwd. rewrite Hcwd, <- rooted_app by done.
  assert (cs ++ ds ≠ []) as Hne by (by destruct cs).
  assert (Forall (λ x, is_name x = true) (cs ++ ds)) as Hall
    by (by apply Forall_app).
  unfold relpath. rewrite bool_decide_eq_false_2 by done.
  unfold abspath, isabs.
  assert (∀ l, startswith (rooted l) sep = true) as Habs.
  { intros l. apply startswith_app. by eexists. }
  rewrite !Habs, !normpath_rooted, !components_rooted by done.
  rewrite commonprefix_len_app, Nat.sub_diag, drop_app_length. simpl.
  by rewrite bool_decide_eq_false_2.
Qed.

(** *** [replace] on joined names *)

Lemma replace_char_piece c d x rest :
  contains (String c "") x = false →
  replace (String c "") d (x +:+ String c rest)
  = x +:+ d +:+ replace (String c "") d rest.
Proof.
  unfold replace. induction x as [|a x IH]; intros Hx.
  - simpl. by rewrite startswith_char, bool_decide_eq_true_2.
  - simpl in Hx. apply orb_false_iff in Hx as [Ha Hx].
    rewrite startswith_char in Ha. simpl.
    by rewrite startswith_char, Ha, IH.
Qed.

Lemma replace_char_none c d x :
  contains (String c "") x = false → replace (String c "") d x = x.
Proof.
  unfold replace. induction x as [|a x IH]; intros Hx; [done|].
  simpl in Hx. apply orb_false_iff in Hx as [Ha Hx].
  rewrite startswith_char in Ha. simpl.
  by rewrite startswith_char, Ha, IH.
Qed.

Lemma replace_join c d l :
  Forall (λ x, contains (String c "") x = false) l →
  replace (String c "") d (join (String c "") l) = join d l.
Proof.
  induction 1 as [|x l Hx Hl IH]; [done|]. destruct l as [|y l].
  - by apply replace_char_none.
  - rewrite !join_cons_cons.
    change (String c "" +:+ join (String c "") (y :: l))
      with (String c (join (String c "") (y :: l))).
    by rewrite replace_char_piece, IH.
Qed.

(** *** [rfind] and [splitext] on a file name with an extension *)

Lemma contains_char_app c a b :
  contains (String c "") (a +:+ b)
  = contains (String c "") a || contains (String c "") b.
Proof.
  induction a as [|x a IH]; simpl.
  - by destruct b.
  - rewrite !startswith_char, IH. by destruct (bool_decide _).
Qed.

Lemma rfind_go_none c i last s :
  contains (String c "") s = false → rfind_go c i last s = last.
Proof.
  revert i last. induction s as [|d s IH]; intros i last Hs; [done|].
  simpl in Hs. apply orb_false_iff in Hs as [Hd Hs].
  rewrite startswith_char in Hd. apply bool_decide_eq_false in Hd.
  simpl. rewrite IH by done.
  destruct (Ascii.eqb_spec c d); done.
Qed.

Lemma rfind_go_app c i last a b :
  rfind_go c i last (a +:+ b)
  = rfind_go c (i + Z.of_nat (String.length a))%Z (rfind_go c i last a) b.
Proof.
  revert i last. induction a as [|d a IH]; intros i last; simpl.
  - by rewrite Z.add_0_r.
  - rewrite IH. f_equal. lia.
Qed.

(** the last occurrence: nothing of the character comes after it *)
Lemma rfind_last c a b :
  contains (String c "") b = false →
  rfind c (a +:+ String c b) = Z.of_nat (String.length a).
Proof.
  intros Hb. unfold rfind. rewrite rfind_go_app. simpl.
  rewrite Ascii.eqb_refl. by rewrite rfind_go_none.
Qed.

Lemma rfind_none c s :
  contains (String c "") s = false → rfind c s = (-1)%Z.
Proof. apply rfind_go_none. Qed.

Lemma slice_to_app a b : slice_to (String.length a) (a +:+ b) = a.
Proof. induction a; simpl; [by destruct b | congruence]. Qed.

Lemma char_at_app a b :
  char_at (String.length a) (a +:+ b) = slice_to 1 b.
Proof. unfold char_at. by rewrite slice_from_app. Qed.

Lemma not_only_dots s :
  only_dots s = false →
  ∃ dots x rest,
    s = dots +:+ String x rest ∧ only_dots dots = true ∧ x ≠ "."%char.
Proof.
  induction s as [|c s IH]; [done|]. simpl.
  destruct (decide (c = "."%char)) as [->|Hc].
  - rewrite bool_decide_eq_true_2 by done. simpl. intros Hs.
    destruct (IH Hs) as (dots & x & rest & -> & Hd & Hx).
    exists (String "." dots), x, rest. simpl. by rewrite Hd.
  - intros _. by exists "", c, s.
Qed.

(** the scan passes over the leading dots and stops at the next
    character *)
Lemma splitext_scan_dots pre dots x tl D n :
  only_dots dots = true → x ≠ "."%char →
  String.length dots < n →
  let p := pre +:+ dots +:+ String x tl in
  splitext_scan p D (String.length pre) n = (slice_to D p, slice_from D p).
Proof.
  intros Hd Hx. revert pre n.
  induction dots as [|c dots IH]; intros pre n Hn p.
  - destruct n as [|n]; [simpl in Hn; lia|]. simpl. subst p.
    rewrite char_at_app. simpl.
    rewrite bool_decide_eq_false_2; [done|]. intros [= ->]. done.
  - simpl in Hd. apply andb_true_iff in Hd as [Hc Hd].
    apply bool_decide_eq_true in Hc as ->.
    destruct n as [|n]; [simpl in Hn; lia|]. simpl. subst p.
    rewrite char_at_app. simpl.
    specialize (IH Hd (pre +:+ ".") n).
    rewrite str_length_app, Nat.add_1_r, str_app_assoc in IH. simpl in IH.
    apply IH. simpl in Hn. lia.
Qed.

(** [splitext] cuts a file name before its last dot *)
Lemma splitext_name dir stem ext :
  dir = "" ∨ (∃ q, dir = q +:+ "/") →
  contains "/" stem = false → only_dots stem = false →
  contains "/" ext = false → contains "." ext = false →
  splitext (dir +:+ stem +:+ "." +:+ ext) = (dir +:+ stem, "." +:+ ext).
Proof.
  intros Hdir Hs Hdots He1 He2.
  set (p := dir +:+ stem +:+ "." +:+ ext).
  assert (rfind "." p = Z.of_nat (String.length (dir +:+ stem))) as Hdot.
  { subst p. rewrite <- str_app_assoc. by apply rfind_last. }
  assert (contains "/" (stem +:+ "." +:+ ext) = false) as Htail.
  { change ("." +:+ ext) with (String "." ext).
    rewrite contains_char_app, Hs. simpl. done. }
  assert (rfind "/" p + 1 = Z.of_nat (String.length dir))%Z as Hsep.
  { subst p. destruct Hdir as [-> | [q ->]].
    - simpl. by rewrite rfind_none.
    - rewrite str_app_assoc.
      change ("/" +:+ stem +:+ "." +:+ ext)
        with (String "/" (stem +:+ "." +:+ ext)).
      rewrite rfind_last, str_length_app by done. simpl. lia. }
  unfold splitext. fold p.
  assert ((rfind "/" p <? rfind "." p)%Z = true) as ->.
  { apply Z.ltb_lt. rewrite Hdot, str_length_app. lia. }
  replace (rfind "/" p) with (rfind "/" p + 1 - 1)%Z by lia.
  rewrite Hsep, Hdot.
  replace (Z.of_nat (String.length dir) - 1 + 1)%Z
    with (Z.of_nat (String.length dir)) by lia.
  rewrite <- Nat2Z.inj_sub, !Nat2Z.id by (rewrite str_length_app; lia).
  replace (String.length (dir +:+ stem) - String.length dir)
    with (String.length stem) by (rewrite str_length_app; lia).
  destruct (not_only_dots stem Hdots) as (dots & x & rest & -> & Hd & Hx).
  subst p. rewrite (str_app_assoc dots). simpl String.append at 3.
  rewrite splitext_scan_dots; [|done|done|].
  - replace (dir +:+ dots +:+ String x (rest +:+ String "." ext))
      with ((dir +:+ dots +:+ String x rest) +:+ String "." ext)
      by (by rewrite !str_app_assoc).
    by rewrite slice_to_app, slice_from_app.
  - rewrite str_length_app. simpl. lia.
Qed.

(** *** The label of a test file below the working directory *)

Lemma file_name_is_name stem ext :
  contains "/" stem = false → only_dots stem = false →
  contains "/" ext = false →
  is_name (stem +:+ "." +:+ ext) = true.
Proof.
  intros Hs Hd He. apply is_name_spec.
  destruct (not_only_dots stem Hd) as (dots & x & rest & -> & Hdots & Hx).
  repeat split.
  - by destruct dots.
  - intros Heq. destruct dots as [|? [|? ?]]; simplify_eq/=.
  - intros Heq. destruct dots as [|? [|? [|? ?]]]; simplify_eq/=.
  - change ("." +:+ ext) with (String "." ext).
    rewrite contains_char_app, Hs. simpl. done.
Qed.

Lemma splitext_joined dirs stem ext :
  contains "/" stem = false → only_dots stem = false →
  contains "/" ext = false → contains "." ext = false →
  splitext (join "/" (dirs ++ [stem +:+ "." +:+ ext]))
  = (join "/" (dirs ++ [stem]), "." +:+ ext).
Proof.
  intros Hs Hd He1 He2. destruct dirs as [|d dirs].
  - exact (splitext_name "" stem ext (or_introl eq_refl) Hs Hd He1 He2).
  - rewrite !join_app by done.
    change (join "/" [stem +:+ "." +:+ ext]) with (stem +:+ "." +:+ ext).
    change (join "/" [stem]) with stem.
    rewrite
      <- (str_app_assoc (join "/" (d :: dirs)) "/" (stem +:+ "." +:+ ext)),
      <- (str_app_assoc (join "/" (d :: dirs)) "/" stem).
    apply splitext_name; [right; by eexists | done..].
Qed.

Lemma join_join sep l m :
  l ≠ [] → join sep (join sep l :: m) = join sep (l ++ m).
Proof.
  intros Hl. destruct m as [|x m].
  - by rewrite app_nil_r.
  - by rewrite join_cons_cons, join_app.
Qed.

Section Project.

(** the working directory is a clean absolute path; below it, through the
    directories [dirs], lies the file [stem.ext] *)
Variable env : Env.
Variables (cs dirs : list string) (stem ext : string).
Hypothesis cwd_rooted : getcwd env = rooted cs.
Hypothesis cwd_names : cs ≠ [] ∧ Forall (λ x, is_name x = true) cs.
Hypothesis dirs_names : Forall (λ x, is_name x = true) dirs.
Hypothesis stem_ok : contains "/" stem = false ∧ only_dots stem = false.
Hypothesis ext_ok : contains "/" ext = false ∧ contains "." ext = false.

#[local] Abbreviation file := (test_path env dirs stem ext).

Lemma relative_dotted_below :
  ∃ relative_file,
    relpath env file (getcwd env) = Ok relative_file
    ∧ replace "/" "." (splitext relative_file).1 = join "." (dirs ++ [stem]).
Proof.
  destruct cwd_names as [Hcs Hc], stem_ok as [Hs Hd], ext_ok as [He1 He2].
  eexists. split.
  - apply (relpath_below env cs); [done|by destruct dirs| done | | done].
    apply Forall_app. split; [done|]. apply Forall_singleton.
    by apply file_name_is_name.
  - rewrite splitext_joined by done. simpl. apply (replace_join "/").
    apply Forall_app.
    split; [by apply names_no_sep | by apply Forall_singleton].
Qed.

(** X8.  A test file below the working directory, given by its absolute
    path: its label is the names from the working directory to the file,
    the extension left out, joined by dots.  Only the last extension is
    left out, and dots in the names stay. *)
Lemma project_file_label :
  contains "::" file = false →
  isfile env file = true →
  id_to_unittest_args env file = Ok [join "." (dirs ++ [stem])].
Proof.
  intros Hsep Hfile. destruct relative_dotted_below as (rel & Hrel & Hdotted).
  by rewrite id_to_unittest_args_no_children, Hfile, Hrel, <- Hdotted.
Qed.

(** X9.  A class or a method of a test file below the working directory:
    the label is the names from the working directory to the file, the
    extension left out, and the child segments, joined by dots. *)
Lemma project_test_label child child_ids :
  contains "::" file = false →
  endswith file ":" = false →
  Forall (λ e, contains "::" e = false) (child :: child_ids) →
  Forall (λ e, endswith e ":" = false) (removelast (child :: child_ids)) →
  id_to_unittest_args env (join "::" (file :: child :: child_ids))
  = Ok [join "." (dirs ++ [stem] ++ child :: child_ids)].
Proof.
  intros Hsep Hend Hc He.
  destruct relative_dotted_below as (rel & Hrel & Hdotted).
  rewrite (id_to_unittest_args_children _ _ file child child_ids).
  - rewrite Hrel. unfold mbind, result_bind, rbind.
    rewrite Hdotted, join_join, <- app_assoc; [done|]. by destruct dirs.
  - apply split_join_colons; [done| |].
    + by apply Forall_cons.
    + rewrite removelast_cons_cons. by apply Forall_cons.
Qed.

End Project.

End LayoutFacts.

(** the scenario, through the layout: the working directory is [/proj],
    the file [test_foo.py] lies in [tests] *)
Lemma project_file_label_scenario :
  getcwd Scenario.env = rooted ["proj"]
  ∧ PosixPath.isfile Scenario.env "/proj/tests/test_foo.py" = true
  ∧ id_to_unittest_args Scenario.env "/proj/tests/test_foo.py"
    = Ok ["tests.test_foo"].
Proof.
  do 2 (split; [reflexivity|]).
  apply (project_file_label Scenario.env ["proj"] ["tests"] "test_foo" "py");
    try done; repeat constructor; done.
Defined.

Lemma project_test_label_scenario :
  getcwd Scenario.env = rooted ["proj"]
  ∧ id_to_unittest_args Scenario.env
      "/proj/tests/test_foo.py::FooTest::test_bar"
    = Ok ["tests.test_foo.FooTest.test_bar"].
Proof.
  split; [reflexivity|].
  apply (project_test_label Scenario.env ["proj"] ["tests"] "test_foo" "py")
    with (child := "FooTest") (child_ids := ["test_bar"]);
    try done; repeat constructor; done.
Defined.

(** ** Paths and keys below the working directory *)

Section KeyFacts.
Import PyStr PosixPath.

Lemma endswith_app_char a b c :
  b ≠ "" → endswith (a +:+ b) (String c "") = endswith b (String c "").
Proof.
  intros Hb. induction a as [|d a IH]; [done|]. simpl.
  rewrite IH. rewrite bool_decide_eq_false_2; [done|].
  intros [= _ H]. destruct a; [by destruct b|done].
Qed.

Lemma endswith_contains_char x c :
  endswith x (String c "") = true → contains (String c "") x = true.
Proof.
  induction x as [|d x IH]; simpl; [done|].
  intros [H|H]%orb_true_iff.
  - apply bool_decide_eq_true in H as [= -> ->].
    by rewrite startswith_char, bool_decide_eq_true_2.
  - rewrite IH by done. apply orb_true_r.
Qed.

Lemma rooted_no_trailing_slash l :
  l ≠ [] → Forall (λ x, is_name x = true) l →
  endswith (rooted l) "/" = false.
Proof.
  induction l as [|x l _] using rev_ind; intros Hne Hl; [done|].
  apply Forall_app in Hl as [_ Hx]. rewrite Forall_singleton in Hx.
  apply is_name_spec in Hx as (Hx & _ & _ & Hs).
  assert (∃ pre, rooted (l ++ [x]) = pre +:+ x) as [pre ->].
  { unfold rooted. destruct l as [|y l].
    - by exists "/".
    - exists ("/" +:+ join "/" (y :: l) +:+ "/").
      rewrite join_app by done. by rewrite !str_app_assoc. }
  rewrite endswith_app_char by done. apply not_true_is_false.
  intros H%endswith_contains_char. congruence.
Qed.

Lemma join_names_relative l :
  l ≠ [] → Forall (λ x, is_name x = true) l →
  startswith (join "/" l) "/" = false.
Proof.
  intros Hne Hl. destruct l as [|x l]; [done|].
  apply Forall_cons in Hl as [Hx _].
  apply is_name_spec in Hx as (Hx & _ & _ & Hs).
  destruct x as [|c x]; [done|]. rewrite join_String.
  simpl in Hs. apply orb_false_iff in Hs as [Hc _].
  by rewrite startswith_char in Hc |- *.
Qed.

Lemma join_names_nonempty l :
  l ≠ [] → Forall (λ x, is_name x = true) l → join "/" l ≠ "".
Proof.
  intros Hne Hl. destruct l as [|x l]; [done|].
  apply Forall_cons in Hl as [Hx _].
  apply is_name_spec in Hx as (Hx & _).
  destruct x as [|c x]; [done|]. by rewrite join_String.
Qed.

(** a path relative to the working directory is made absolute by putting
    the directory before it *)
Lemma abspath_relative env cs ds :
  cs ≠ [] → ds ≠ [] →
  Forall (λ x, is_name x = true) cs →
  Forall (λ x, is_name x = true) ds →
  getcwd env = rooted cs →
  abspath env (join "/" ds) = rooted (cs ++ ds).
Proof.
  intros Hcs Hds Hc Hd Hcwd. unfold abspath, isabs, join2, sep.
  rewrite join_names_relative by done. rewrite Hcwd.
  rewrite rooted_no_trailing_slash by done.
  rewrite bool_decide_eq_false_2 by done. simpl orb. cbv iota.
  rewrite <- rooted_app by done. apply normpath_rooted.
  - by destruct cs.
  - by apply Forall_app.
Qed.

Lemma abspath_rooted env l :
  l ≠ [] → Forall (λ x, is_name x = true) l →
  abspath env (rooted l) = rooted l.
Proof.
  intros Hne Hl. unfold abspath, isabs.
  assert (startswith (rooted l) sep = true) as ->.
  { apply startswith_app. by eexists. }
  by apply normpath_rooted.
Qed.

(** the path from the working directory to a file below it, whichever
    way the file is written *)
Lemma relpath_to_below env cs ds path :
  cs ≠ [] → ds ≠ [] →
  Forall (λ x, is_name x = true) cs →
  Forall (λ x, is_name x = true) ds →
  getcwd env = rooted cs →
  path ≠ "" →
  abspath env path = rooted (cs ++ ds) →
  relpath env path (getcwd env) = Ok (join "/" ds).
Proof.
  intros Hcs Hds Hc Hd Hcwd Hpath Habs. unfold relpath.
  rewrite bool_decide_eq_false_2 by done.
  rewrite Habs, Hcwd, abspath_rooted by done.
  rewrite !components_rooted;
    [|by destruct cs|by apply Forall_app|done..].
  rewrite commonprefix_len_app, Nat.sub_diag, drop_app_length. simpl.
  by rewrite bool_decide_eq_false_2.
Qed.

(** [pathlib] leaves a clean absolute path as it is *)
Lemma absolute_rooted env l :
  l ≠ [] → Forall (λ x, is_name x = true) l →
  Pathlib.absolute env (rooted l) = rooted l.
Proof.
  intros Hne Hl. unfold Pathlib.absolute, Pathlib.root.
  assert (startswith (rooted l) "/" = true) as ->.
  { apply startswith_app. by eexists. }
  assert (startswith (rooted l) "//" = false) as ->.
  { destruct l as [|x l]; [done|]. apply Forall_cons in Hl as [Hx _].
    by apply rooted_one_slash. }
  simpl. unfold Pathlib.str_of_path, Pathlib.root, Pathlib.tail.
  assert (startswith (rooted l) "/" = true) as ->.
  { apply startswith_app. by eexists. }
  assert (startswith (rooted l) "//" = false) as ->.
  { destruct l as [|x l]; [done|]. apply Forall_cons in Hl as [Hx _].
    by apply rooted_one_slash. }
  simpl. rewrite split_rooted by done.
  rewrite filter_cons_False by (by intros [? _]).
  assert (filter (λ x, x ≠ "" ∧ x ≠ ".") l = l) as ->.
  { clear Hne. induction Hl as [|x l Hx _ IH]; [done|].
    apply is_name_spec in Hx as (H1 & H2 & _).
    by rewrite filter_cons_True, IH. }
  done.
Qed.

(** the absolute path that [pathlib] gives begins at the root when the
    working directory does *)
Lemma absolute_is_absolute env s :
  startswith (getcwd env) "/" = true →
  startswith (Pathlib.absolute env s) "/" = true.
Proof.
  intros Hcwd.
  assert (∀ p, startswith p "/" = true →
               startswith (Pathlib.str_of_path p) "/" = true) as Hstr.
  { intros p Hp. unfold Pathlib.str_of_path, Pathlib.root. rewrite Hp. simpl.
    destruct (_ && _); case_bool_decide as H; try (by simpl in H);
      apply startswith_app; by eexists. }
  unfold Pathlib.absolute. destruct (negb _) eqn:Hroot.
  - apply Hstr. unfold Pathlib.root in Hroot.
    by destruct (startswith s "/").
  - destruct (bool_decide (Pathlib.tail s = [])); [done|]. apply Hstr.
    unfold join2, sep. apply negb_false_iff, bool_decide_eq_true in Hroot.
    unfold Pathlib.root in Hroot.
    destruct (startswith s "/") eqn:Hs.
    { simpl in Hroot. by destruct (_ && _). }
    apply startswith_app in Hcwd as [r ->].
    destruct (_ || _); apply startswith_app; by eexists.
Qed.

Lemma stem_is_name stem :
  contains "/" stem = false → only_dots stem = false → is_name stem = true.
Proof.
  intros Hs Hd. apply is_name_spec.
  destruct (not_only_dots stem Hd) as (d & x & r & -> & Hdots & Hx).
  repeat split.
  - by destruct d.
  - intros Heq. destruct d as [|? [|? ?]]; simplify_eq/=.
  - intros Heq. destruct d as [|? [|? [|? ?]]]; simplify_eq/=.
  - done.
Qed.

Lemma relpath_same_cwd env1 env2 path start :
  getcwd env1 = getcwd env2 →
  relpath env1 path start = relpath env2 path start.
Proof. intros H. unfold relpath, abspath. by rewrite H. Qed.

Lemma contains_colons_join path child child_ids :
  contains "::" (join "::" (path :: child :: child_ids)) = true.
Proof.
  apply contains_app. rewrite join_cons_cons.
  by exists path, (join "::" (child :: child_ids)).
Qed.

Section Below.

Variable env : Env.
Variables (cs dirs : list string) (stem ext : string).
Hypothesis cwd_rooted : getcwd env = rooted cs.
Hypothesis cwd_names : cs ≠ [] ∧ Forall (λ x, is_name x = true) cs.
Hypothesis dirs_names : Forall (λ x, is_name x = true) dirs.
Hypothesis stem_ok : contains "/" stem = false ∧ only_dots stem = false.
Hypothesis ext_ok : contains "/" ext = false ∧ contains "." ext = false.

#[local] Abbreviation file := (test_path env dirs stem ext).
#[local] Abbreviation relative := (join "/" (dirs ++ [stem +:+ "." +:+ ext])).

Lemma below_names :
  Forall (λ x, is_name x = true) (dirs ++ [stem +:+ "." +:+ ext]).
Proof.
  destruct stem_ok as [Hs Hd], ext_ok as [He1 He2].
  apply Forall_app. split; [done|]. apply Forall_singleton.
  by apply file_name_is_name.
Qed.

Lemma test_path_rooted :
  file = rooted (cs ++ dirs ++ [stem +:+ "." +:+ ext]).
Proof.
  destruct cwd_names as [Hcs Hc]. unfold test_path.
  rewrite cwd_rooted, <- rooted_app; [done..|]. by destruct dirs.
Qed.

Lemma dotted_of_relative :
  replace "/" "." (splitext relative).1 = join "." (dirs ++ [stem]).
Proof.
  destruct stem_ok as [Hs Hd], ext_ok as [He1 He2].
  rewrite splitext_joined by done. simpl. apply (replace_join "/").
  apply Forall_app.
  split; [by apply names_no_sep | by apply Forall_singleton].
Qed.

(** the two ways to write the file give the same relative path *)
Lemma relpath_file : relpath env file (getcwd env) = Ok relative.
Proof.
  destruct cwd_names as [Hcs Hc]. pose proof below_names as Hn.
  apply (relpath_to_below env cs); [done|by destruct dirs|done..| |].
  - unfold test_path. rewrite cwd_rooted. done.
  - rewrite test_path_rooted. apply abspath_rooted.
    + by destruct cs.
    + by apply Forall_app.
Qed.

Lemma relpath_relative : relpath env relative (getcwd env) = Ok relative.
Proof.
  destruct cwd_names as [Hcs Hc]. pose proof below_names as Hn.
  assert (dirs ++ [stem +:+ "." +:+ ext] ≠ []) as Hne by (by destruct dirs).
  apply (relpath_to_below env cs); [done..| |].
  - by apply join_names_nonempty.
  - by apply abspath_relative.
Qed.

Lemma label_of_file path :
  relpath env path (getcwd env) = Ok relative →
  contains "::" path = false →
  isfile env path = true →
  id_to_unittest_args env path = Ok [join "." (dirs ++ [stem])].
Proof.
  intros Hrel Hsep Hfile.
  by rewrite id_to_unittest_args_no_children, Hfile, Hrel,
    <- dotted_of_relative.
Qed.

Lemma label_of_children path child child_ids :
  relpath env path (getcwd env) = Ok relative →
  contains "::" path = false → endswith path ":" = false →
  Forall (λ e, contains "::" e = false) (child :: child_ids) →
  Forall (λ e, endswith e ":" = false) (removelast (child :: child_ids)) →
  id_to_unittest_args env (join "::" (path :: child :: child_ids))
  = Ok [join "." (dirs ++ [stem] ++ child :: child_ids)].
Proof.
  intros Hrel Hsep Hend Hc He.
  rewrite (id_to_unittest_args_children _ _ path child child_ids).
  - rewrite Hrel. unfold mbind, result_bind, rbind.
    rewrite dotted_of_relative, join_join, <- app_assoc; [done|].
    by destruct dirs.
  - apply split_join_colons; [done| |].
    + by apply Forall_cons.
    + rewrite removelast_cons_cons. by apply Forall_cons.
Qed.

Lemma case_file_below test :
  module_file test = file → case_file env test = file.
Proof.
  destruct cwd_names as [Hcs Hc]. pose proof below_names as Hn.
  intros Hm. unfold case_file. rewrite Hm, test_path_rooted.
  apply absolute_rooted; [by destruct cs|].
  by apply Forall_app.
Qed.

End Below.

End KeyFacts.

(** ** The effect of a run *)

Lemma last_streamed_app key calls1 calls2 :
  last_streamed key (calls1 ++ calls2) =
  match last_streamed key calls2 with
  | Some v => Some v
  | None => last_streamed key calls1
  end.
Proof.
  induction calls1 as [|[k v] calls1 IH]; simpl.
  - by destruct (last_streamed key calls2).
  - rewrite IH. by destruct (last_streamed key calls2).
Qed.

Lemma stored_over_nil m key : stored_over m [] key = m !! key.
Proof. reflexivity. Qed.

Lemma stored_over_one m id record key :
  stored_over m [(id, record)] key = <[id := record]> m !! key.
Proof.
  unfold stored_over. simpl. case_bool_decide as Hk.
  - subst. by rewrite lookup_insert_eq.
  - by rewrite lookup_insert_ne.
Qed.

Lemma stored_over_app m m' calls1 calls2 key :
  (∀ k, m' !! k = stored_over m calls1 k) →
  stored_over m' calls2 key = stored_over m (calls1 ++ calls2) key.
Proof.
  intros Hm. unfold stored_over. rewrite last_streamed_app.
  destruct (last_streamed key calls2); [done|]. apply Hm.
Qed.

Lemma not_Exists_Forall_not {A} (P : A → Prop) (l : list A) :
  ¬ Exists P l → Forall (λ x, ¬ P x) l.
Proof.
  induction l as [|x l IH]; intros H; [done|].
  apply Forall_cons. split.
  - intros Hx. apply H. by apply Exists_cons_hd.
  - apply IH. intros Hl. apply H. by apply Exists_cons_tl.
Qed.

Lemma next_error_lines file err :
  next (error_lines file err) =
  if bool_decide (Exists (λ frame, filename frame = file) err)
  then next (error_lines file err) else Raise StopIteration.
Proof.
  case_bool_decide as H; [done|]. apply error_lines_no_match.
  by apply not_Exists_Forall_not.
Qed.

(** an own frame lets the search find a line *)
Lemma next_error_lines_found file err :
  Exists (λ frame, filename frame = file) err →
  ∃ line, next (error_lines file err) = Ok line.
Proof.
  intros H. apply Exists_last_split in H
    as (outer & frame & inner & -> & Hf & Hinner); [|apply _].
  exists (lineno frame - 1)%Z. by apply error_lines_innermost.
Qed.

(** what the search of a line and the record of it do to the state *)
Lemma failed_effect env test summary st :
  let r :=
    match next (error_lines (case_file env test) summary) with
    | Ok line => (Ok tt, emitted (case_id env test) (failed_record line) st)
    | Raise e => (Raise e, st)
    end in
  let found :=
    bool_decide
      (Exists (λ frame, filename frame = case_file env test) summary) in
  ∃ calls,
    streamed r.2 = streamed st ++ calls
    ∧ sys_path r.2 = sys_path st
    ∧ (∀ key, neo_results r.2 !! key = stored_over (neo_results st) calls key)
    ∧ r.1 = (if found then Ok tt else Raise StopIteration)
    ∧ (if found
       then ∃ record,
              calls = [(case_id env test, record)]
              ∧ dict_get "status" record = Some (PStatus FAILED)
       else calls = []).
Proof.
  simpl. case_bool_decide as H.
  - destruct (next_error_lines_found _ _ H) as [line ->].
    exists [(case_id env test, failed_record line)].
    repeat split; [|by eexists]. intros key. by rewrite stored_over_one.
  - rewrite error_lines_no_match by (by apply not_Exists_Forall_not).
    exists []. by rewrite app_nil_r.
Qed.

(** what one callback does to the state, whether it returns or raises *)
Lemma report_effect env t st :
  ∃ calls,
    streamed (report env t st).2 = streamed st ++ calls
    ∧ sys_path (report env t st).2 = sys_path st
    ∧ (∀ key, neo_results (report env t st).2 !! key
              = stored_over (neo_results st) calls key)
    ∧ (report env t st).1
      = (if locatable env t then Ok tt else Raise StopIteration)
    ∧ (if locatable env t && reported t
       then ∃ record,
              calls = [(case_id env t.1, record)]
              ∧ dict_get "status" record = Some (PStatus (status_of t.2))
       else calls = []).
Proof.
  destruct t as [test o]. rewrite report_eq. unfold locatable, reported.
  destruct o as [|err|err|err|]; simpl; rewrite ?andb_true_r.
  - exists [(case_id env test, passed_record)].
    repeat split; [|by eexists]. intros key. by rewrite stored_over_one.
  - apply failed_effect.
  - apply failed_effect.
  - apply failed_effect.
  - exists []. by rewrite app_nil_r.
Qed.

(** a test as unittest runs it: the state is that of its callback, and a
    search that finds no line leaves as [stops_with] says *)
Lemma run_test_eq env t st :
  run_test env t st =
  match report env t st with
  | (Raise StopIteration, st1) => (Raise (stops_with t.2), st1)
  | r => r
  end.
Proof.
  destruct t as [test o]. unfold run_test, testPartExecutor. simpl.
  destruct o; cbv beta iota;
    by destruct (report env _ st) as [[[]|[]] st1].
Qed.

Lemma run_test_effect env t st :
  (run_test env t st).2 = (report env t st).2
  ∧ (run_test env t st).1
    = (if locatable env t then Ok tt else Raise (stops_with t.2)).
Proof.
  rewrite run_test_eq.
  destruct (report_effect env t st) as (calls & _ & _ & _ & Hr & _).
  destruct (report env t st) as [r st1]. simpl in Hr. subst r.
  by destruct (locatable env t).
Qed.

(** the tests of a suite up to the first one that cannot be located *)
Lemma run_suite_cons env t suite st :
  run_suite env (t :: suite) st =
  if locatable env t then run_suite env suite (report env t st).2
  else (Raise (stops_with t.2), (report env t st).2).
Proof.
  simpl. unfold_M. destruct (run_test_effect env t st) as [Hst Hr].
  destruct (run_test env t st) as [r st1]. simpl in Hst, Hr. subst r st1.
  by destruct (locatable env t).
Qed.

Lemma run_suite_effect env suite st :
  ∃ calls,
    streamed (run_suite env suite st).2 = streamed st ++ calls
    ∧ sys_path (run_suite env suite st).2 = sys_path st
    ∧ (∀ key, neo_results (run_suite env suite st).2 !! key
              = stored_over (neo_results st) calls key)
    ∧ (run_suite env suite st).1
      = match find (λ t, negb (locatable env t)) suite with
        | None => Ok tt
        | Some t => Raise (stops_with t.2)
        end.
Proof.
  revert st. induction suite as [|t suite IH]; intros st.
  - exists []. by rewrite app_nil_r.
  - rewrite run_suite_cons.
    destruct (report_effect env t st) as (calls1 & Hs & Hp & Hm & _).
    simpl find. destruct (locatable env t); simpl.
    + destruct (IH (report env t st).2) as (calls2 & Hs2 & Hp2 & Hm2 & Hr2).
      exists (calls1 ++ calls2). rewrite Hs2, Hs, Hp2, Hp, Hr2.
      repeat split; [by rewrite app_assoc|].
      intros key. rewrite Hm2. by apply stored_over_app.
    + by exists calls1.
Qed.

Lemma run_eq build_suite env args st :
  run build_suite env args st =
  let st1 := set_sys_path (cons (getcwd env)) st in
  match index_last args with
  | Raise e => (Raise e, st1)
  | Ok case =>
      match id_to_unittest_args env case with
      | Raise e => (Raise e, st1)
      | Ok labels =>
          match index (take 1 (sys_argv env) ++ labels) 1 with
          | Raise e => (Raise e, st1)
          | Ok label =>
              match run_suite env (build_suite [label])
                      (set_neo_results (λ _, ∅) st1) with
              | (Ok _, st') => (Ok (neo_results st'), st')
              | (Raise e, st') => (Raise e, st')
              end
          end
      end
  end.
Proof.
  unfold run, run_tests, suite_result, init. unfold_M. simpl.
  destruct (index_last args) as [case|e]; [|done].
  destruct (id_to_unittest_args env case) as [labels|e]; [|done].
  destruct (index _ 1) as [label|e]; [|done].
  by destruct (run_suite _ _ _) as [[[]|e] st'].
Qed.

Lemma index_last_snoc {A} (l : list A) x : index_last (l ++ [x]) = Ok x.
Proof. unfold index_last. by rewrite last_snoc. Qed.

Lemma id_to_unittest_args_empty_path env case_id :
  PyStr.startswith case_id "::" = true →
  id_to_unittest_args env case_id = Raise ValueError.
Proof.
  intros Hstart.
  destruct (split_startswith "::" case_id) as (child & child_ids & Hsplit);
    [done..|].
  by rewrite (id_to_unittest_args_children _ _ _ _ _ Hsplit).
Qed.

Lemma id_to_unittest_args_returns env case_id :
  PyStr.startswith case_id "::" = false →
  ∃ label, id_to_unittest_args env case_id = Ok [label].
Proof.
  intros Hstart. destruct (PyStr.contains "::" case_id) eqn:Hsep.
  - destruct (split_with_sep "::" case_id)
      as (path & child & child_ids & Hsplit); [done..|].
    rewrite (id_to_unittest_args_children _ _ _ _ _ Hsplit).
    destruct (relpath_returns env path (getcwd env)) as [rel ->];
      [|by eexists].
    intros Hp. apply (split_colons_path _ _ _ _ Hsplit) in Hp. congruence.
  - rewrite id_to_unittest_args_no_children by done.
    destruct (PosixPath.isfile env case_id) eqn:Hfile; [|by eexists].
    destruct (relpath_returns env case_id (getcwd env)) as [rel ->];
      [by eapply isfile_nonempty | by eexists].
Qed.

(** * The claims *)

Section Claims.
Import PyStr PosixPath.




(** C2.  A failure or an error whose traceback has no frame in the test's
    own file: the search of [addFailure] and of [addError] is exhausted and
    raises [StopIteration]; nothing was stored or streamed for the test;
    and a suite that comes to such a test ends there, in the state the
    tests before it left.  The exception that ends the run is the
    [StopIteration] itself for the error of a fixture, and the
    [RuntimeError] the generator makes of it for the failure or the error
    of a part of a test. *)
Theorem no_own_frame_raises env test (failure : failure_info) (err : exc_info)
    st :
  Forall (λ frame, filename frame ≠ case_file env test)
    (extract_tb (tb_levels failure)) →
  Forall (λ frame, filename frame ≠ case_file env test) err →
  addFailure env test failure st = (Raise StopIteration, st)
  ∧ addError env test err st = (Raise StopIteration, st)
  ∧ ∀ before after st0,
      run_suite env before st0 = (Ok tt, st) →
      run_suite env (before ++ (test, Failure failure) :: after) st0
      = (Raise RuntimeError, st)
      ∧ run_suite env (before ++ (test, Error err) :: after) st0
        = (Raise RuntimeError, st)
      ∧ run_suite env (before ++ (test, ClassOrModuleError err) :: after) st0
        = (Raise StopIteration, st).
Proof.
  intros Hfailure Herr.
  assert (addFailure env test failure st = (Raise StopIteration, st)) as HF.
  { rewrite addFailure_eq, error_lines_no_match; [done|].
    destruct (frames_left_prefix failure) as [cut Hcut].
    rewrite Hcut in Hfailure. by apply Forall_app in Hfailure as [? _]. }
  assert (addError env test err st = (Raise StopIteration, st)) as HE.
  { by rewrite addError_eq, error_lines_no_match. }
  do 2 (split; [done|]).
  intros before after st0 Hbefore.
  rewrite !run_suite_app, Hbefore. simpl. unfold_M.
  unfold run_test, testPartExecutor, report. simpl. by rewrite HF, HE.
Qed.

Lemma no_own_frame_scenario :
  Forall (λ frame, filename frame ≠ case_file Scenario.env Scenario.test)
    (extract_tb (tb_levels Scenario.failure_library))
  ∧ Forall (λ frame, filename frame ≠ case_file Scenario.env Scenario.test)
      Scenario.err_library
  ∧ addFailure Scenario.env Scenario.test Scenario.failure_library Scenario.st
    = (Raise StopIteration, Scenario.st)
  ∧ addError Scenario.env Scenario.test Scenario.err_library Scenario.st
    = (Raise StopIteration, Scenario.st)
  ∧ run_suite Scenario.env
      [(Scenario.test, Failure Scenario.failure_library);
       (Scenario.test, Success)] Scenario.st
    = (Raise RuntimeError, Scenario.st).
Proof.
  assert (Forall
            (λ frame, filename frame ≠ case_file Scenario.env Scenario.test)
            (extract_tb (tb_levels Scenario.failure_library))) as Hfailure.
  { repeat apply Forall_cons_2; [discriminate..|apply Forall_nil_2]. }
  assert (Forall
            (λ frame, filename frame ≠ case_file Scenario.env Scenario.test)
            Scenario.err_library) as Herr.
  { repeat apply Forall_cons_2; [discriminate..|apply Forall_nil_2]. }
  do 2 (split; [assumption|]).
  destruct (no_own_frame_raises Scenario.env Scenario.test
              Scenario.failure_library Scenario.err_library Scenario.st
              Hfailure Herr) as (HF & HE & Hsuite).
  do 2 (split; [assumption|]).
  by destruct (Hsuite [] [(Scenario.test, Success)] Scenario.st eq_refl)
    as (H & _).
Defined.

(** C3.  An identifier without ["::"] that names an existing file: the
    result is the one label made of the path relative to the working
    directory, cut before its extension, with every ["/"] turned into a
    dot: what was cut is what [splitext] calls the extension, and no ["/"]
    is left in the label. *)
Theorem file_identifier_label env case_id :
  contains "::" case_id = false →
  isfile env case_id = true →
  ∃ relative_file,
    relpath env case_id (getcwd env) = Ok relative_file
    ∧ id_to_unittest_args env case_id
      = Ok [replace "/" "." (splitext relative_file).1]
    ∧ (splitext relative_file).1 +:+ (splitext relative_file).2 = relative_file
    ∧ contains "/" (replace "/" "." (splitext relative_file).1) = false.
Proof.
  intros Hsep Hfile.
  destruct (relpath_returns env case_id (getcwd env)) as [relative_file Hrel].
  { by eapply isfile_nonempty. }
  exists relative_file. split; [done|]. split; [|split].
  - by rewrite id_to_unittest_args_no_children, Hfile, Hrel.
  - apply splitext_app.
  - by apply replace_char_gone.
Qed.

(** the scenario of C3 *)
Lemma file_identifier_scenario :
  contains "::" "/proj/tests/test_foo.py" = false
  ∧ isfile Scenario.env "/proj/tests/test_foo.py" = true
  ∧ getcwd Scenario.env = "/proj"
  ∧ id_to_unittest_args Scenario.env "/proj/tests/test_foo.py"
    = Ok ["tests.test_foo"].
Proof.
  do 3 (split; [reflexivity|]).
  destruct (file_identifier_label Scenario.env "/proj/tests/test_foo.py"
              eq_refl eq_refl) as (relative_file & Hrel & -> & _).
  vm_compute in Hrel. injection Hrel as <-. reflexivity.
Defined.

(** C5.  An identifier without ["::"] that names no existing file (a
    directory): the result is the identifier itself, alone. *)
Theorem directory_identifier_unchanged env case_id :
  contains "::" case_id = false →
  isfile env case_id = false →
  id_to_unittest_args env case_id = Ok [case_id].
Proof.
  intros Hsep Hfile. by rewrite id_to_unittest_args_no_children, Hfile.
Qed.

Lemma directory_identifier_scenario :
  contains "::" "/proj/tests" = false
  ∧ isfile Scenario.env "/proj/tests" = false
  ∧ id_to_unittest_args Scenario.env "/proj/tests" = Ok ["/proj/tests"].
Proof.
  do 2 (split; [reflexivity|]).
  exact (directory_identifier_unchanged Scenario.env "/proj/tests"
           eq_refl eq_refl).
Defined.

(** C4, as the code has it.  An identifier with ["::"] in it that does not
    begin with ["::"]: it is a non-empty path and child segments joined by
    ["::"], and the result is the one label made of the dotted module path
    of the path (relative to the working directory, cut before its
    extension, every ["/"] a dot) and the child segments, joined by dots. *)
Theorem child_identifier_label env case_id :
  contains "::" case_id = true →
  startswith case_id "::" = false →
  ∃ path child_ids relative_file,
    split "::" case_id = path :: child_ids
    ∧ child_ids ≠ []
    ∧ path ≠ ""
    ∧ case_id = join "::" (path :: child_ids)
    ∧ relpath env path (getcwd env) = Ok relative_file
    ∧ id_to_unittest_args env case_id
      = Ok [join "." (replace "/" "." (splitext relative_file).1 :: child_ids)].
Proof.
  intros Hsep Hstart.
  destruct (split_with_sep "::" case_id) as (path & child & child_ids & Hsplit);
    [done..|].
  assert (path ≠ "") as Hpath.
  { intros Hp. apply (split_colons_path _ _ _ _ Hsplit) in Hp. congruence. }
  destruct (relpath_returns env path (getcwd env) Hpath)
    as [relative_file Hrel].
  exists path, (child :: child_ids), relative_file.
  do 3 (split; [done|]). split; [|split; [done|]].
  - by rewrite <- Hsplit, join_split.
  - by rewrite (id_to_unittest_args_children _ _ _ _ _ Hsplit), Hrel.
Qed.

(** the scenario of C4 *)
Lemma child_identifier_scenario :
  contains "::" "/proj/tests/test_foo.py::FooTest::test_bar" = true
  ∧ startswith "/proj/tests/test_foo.py::FooTest::test_bar" "::" = false
  ∧ getcwd Scenario.env = "/proj"
  ∧ id_to_unittest_args Scenario.env
      "/proj/tests/test_foo.py::FooTest::test_bar"
    = Ok ["tests.test_foo.FooTest.test_bar"].
Proof.
  do 3 (split; [reflexivity|]).
  destruct (child_identifier_label Scenario.env
              "/proj/tests/test_foo.py::FooTest::test_bar" eq_refl eq_refl)
    as (path & child_ids & relative_file & Hsplit & _ & _ & _ & Hrel & ->).
  vm_compute in Hsplit. injection Hsplit as <- <-.
  vm_compute in Hrel. injection Hrel as <-. reflexivity.
Defined.

(** C4 fails where the path before the first ["::"] is empty:
    [os.path.relpath] refuses an empty path. *)
Lemma child_identifier_empty_path_raises :
  contains "::" "::FooTest::test_bar" = true
  ∧ split "::" "::FooTest::test_bar" = [""; "FooTest"; "test_bar"]
  ∧ id_to_unittest_args Scenario.env "::FooTest::test_bar" = Raise ValueError.
Proof. repeat split. Qed.

(** C10, as the code has it.  An identifier that begins with ["::"] makes
    [id_to_unittest_args] raise [ValueError]; on every other string it
    returns a list of exactly one label; and no list it returns is empty or
    longer. *)
Theorem id_to_unittest_args_one_label env case_id :
  (startswith case_id "::" = true →
   id_to_unittest_args env case_id = Raise ValueError)
  ∧ (startswith case_id "::" = false →
     ∃ label, id_to_unittest_args env case_id = Ok [label])
  ∧ (∀ labels, id_to_unittest_args env case_id = Ok labels →
     length labels = 1).
Proof.
  assert (startswith case_id "::" = false →
          ∃ label, id_to_unittest_args env case_id = Ok [label]) as Hone.
  { intros Hstart. destruct (contains "::" case_id) eqn:Hsep.
    - destruct (split_with_sep "::" case_id)
        as (path & child & child_ids & Hsplit); [done..|].
      rewrite (id_to_unittest_args_children _ _ _ _ _ Hsplit).
      destruct (relpath_returns env path (getcwd env)) as [rel ->];
        [|by eexists].
      intros Hp. apply (split_colons_path _ _ _ _ Hsplit) in Hp. congruence.
    - rewrite id_to_unittest_args_no_children by done.
      destruct (isfile env case_id) eqn:Hfile; [|by eexists].
      destruct (relpath_returns env case_id (getcwd env)) as [rel ->];
        [by eapply isfile_nonempty | by eexists]. }
  assert (startswith case_id "::" = true →
          id_to_unittest_args env case_id = Raise ValueError) as Hraise.
  { intros Hstart.
    destruct (split_startswith "::" case_id) as (child & child_ids & Hsplit);
      [done..|].
    by rewrite (id_to_unittest_args_children _ _ _ _ _ Hsplit). }
  split; [done|]. split; [done|].
  intros labels Hl. destruct (startswith case_id "::").
  - by rewrite Hraise in Hl.
  - destruct (Hone eq_refl) as [label Hlabel]. rewrite Hlabel in Hl.
    by injection Hl as <-.
Qed.

(** C10 fails on an identifier that begins with ["::"]: no list is
    returned. *)
Lemma id_to_unittest_args_raises :
  id_to_unittest_args Scenario.env "::Foo" = Raise ValueError
  ∧ ¬ ∃ labels, id_to_unittest_args Scenario.env "::Foo" = Ok labels.
Proof. split; [reflexivity|]. by intros [labels H]. Qed.

(** C7.  A passing test: [addSuccess] calls [stream] once, with the
    test's identifier and the record it stored, whose status is PASSED and
    which has no ["errors"] key. *)
Theorem addSuccess_streams_passed env test st :
  ∃ st',
    addSuccess env test st = (Ok tt, st')
    ∧ let record := PDict [("status", PStatus PASSED)] in
      streamed st' = streamed st ++ [(case_id env test, record)]
      ∧ neo_results st' = <[case_id env test := record]> (neo_results st)
      ∧ dict_get "status" record = Some (PStatus PASSED)
      ∧ has_key "errors" record = false.
Proof.
  exists (emitted (case_id env test) passed_record st).
  split; [apply addSuccess_eq | done].
Qed.

(** the scenario of C7 *)
Lemma addSuccess_scenario :
  streamed (addSuccess Scenario.env Scenario.test Scenario.st).2
  = [("/proj/tests/test_foo.py::FooTest::test_bar",
      PDict [("status", PStatus PASSED)])].
Proof.
  destruct (addSuccess_streams_passed Scenario.env Scenario.test Scenario.st)
    as (st' & Hrun & Hst & _).
  rewrite Hrun. simpl. rewrite Hst. reflexivity.
Defined.

(** C6 fails for a passing test: its record has the status and nothing
    else. *)
Lemma passed_record_has_status_only :
  streamed (addSuccess Scenario.env Scenario.test Scenario.st).2
  = [("/proj/tests/test_foo.py::FooTest::test_bar",
      PDict [("status", PStatus PASSED)])]
  ∧ has_key "errors" (PDict [("status", PStatus PASSED)]) = false
  ∧ has_key "short" (PDict [("status", PStatus PASSED)]) = false
  ∧ is_result_record (PDict [("status", PStatus PASSED)]) = false.
Proof. repeat split. Qed.

(** C6, as the code has it.  The record stored and streamed for a failed
    or errored test has the three fields and the shape of a Result Record:
    status FAILED, one error with a [None] message and an integer line,
    [short] [None].  The record of a passing test has the status PASSED
    and neither ["errors"] nor ["short"].  A test reported otherwise
    leaves no record. *)
Theorem emitted_record_shape env test o st st' :
  report env (test, o) st = (Ok tt, st') →
  match o with
  | Failure _ | Error _ | ClassOrModuleError _ =>
      ∃ line,
        let record :=
          PDict [("status", PStatus FAILED);
                 ("errors", PList [PDict [("message", PNone);
                                          ("line", PInt line)]]);
                 ("short", PNone)] in
        streamed st' = streamed st ++ [(case_id env test, record)]
        ∧ neo_results st' !! case_id env test = Some record
        ∧ is_result_record record = true
        ∧ has_key "status" record && has_key "errors" record
          && has_key "short" record = true
  | Success =>
      let record := PDict [("status", PStatus PASSED)] in
      streamed st' = streamed st ++ [(case_id env test, record)]
      ∧ neo_results st' !! case_id env test = Some record
      ∧ has_key "status" record = true
      ∧ has_key "errors" record = false
      ∧ has_key "short" record = false
  | Other => st' = st
  end.
Proof.
  rewrite report_eq. destruct o as [|err|err|err|].
  - intros [= <-]. repeat split. apply emitted_lookup.
  - destruct (next _) as [line|e]; [|done]. intros [= <-].
    exists line. repeat split. apply emitted_lookup.
  - destruct (next _) as [line|e]; [|done]. intros [= <-].
    exists line. repeat split. apply emitted_lookup.
  - destruct (next _) as [line|e]; [|done]. intros [= <-].
    exists line. repeat split. apply emitted_lookup.
  - by intros [= <-].
Qed.

Lemma emitted_record_scenario :
  let st' :=
    (report Scenario.env (Scenario.test, Failure Scenario.failure) Scenario.st).2 in
  report Scenario.env (Scenario.test, Failure Scenario.failure) Scenario.st
  = (Ok tt, st')
  ∧ ∃ line,
      let record :=
        PDict [("status", PStatus FAILED);
               ("errors", PList [PDict [("message", PNone);
                                        ("line", PInt line)]]);
               ("short", PNone)] in
      streamed st' = [(case_id Scenario.env Scenario.test, record)]
      ∧ neo_results st' !! case_id Scenario.env Scenario.test = Some record
      ∧ is_result_record record = true
      ∧ has_key "status" record && has_key "errors" record
        && has_key "short" record = true.
Proof.
  assert (report Scenario.env (Scenario.test, Failure Scenario.failure) Scenario.st
          = (Ok tt, (report Scenario.env (Scenario.test, Failure Scenario.failure)
                       Scenario.st).2)) as H.
  { reflexivity. }
  split; [exact H|].
  exact (emitted_record_shape Scenario.env Scenario.test
           (Failure Scenario.failure) Scenario.st _ H).
Defined.

(** C8 fails for a test module whose path has ["::"] in it: the key
    splits into four pieces, the three recorded elements do not come
    back. *)
Lemma result_key_with_colons_in_path :
  streamed (addSuccess Scenario.env Scenario.test_colons Scenario.st).2
  = [("/proj/a::b/test_foo.py::FooTest::test_bar",
      PDict [("status", PStatus PASSED)])]
  ∧ case_id_elems Scenario.env Scenario.test_colons
    = ["/proj/a::b/test_foo.py"; "FooTest"; "test_bar"]
  ∧ split "::" "/proj/a::b/test_foo.py::FooTest::test_bar"
    = ["/proj/a"; "b/test_foo.py"; "FooTest"; "test_bar"]
  ∧ split "::" (case_id Scenario.env Scenario.test_colons)
    ≠ case_id_elems Scenario.env Scenario.test_colons.
Proof. repeat split. discriminate. Qed.

(** C8, as the code has it.  The key under which an outcome is stored and
    streamed is the join by ["::"] of the recorded elements: the absolute
    path of the test's module, the class name and, for a Django
    [TestCase], the method name, in that order.  Splitting the key on
    ["::"] gives these elements back exactly when none of them has ["::"]
    in it and none but the last ends in [":"]. *)
Theorem result_key_splits_back env test o st st' :
  o ≠ Other →
  report env (test, o) st = (Ok tt, st') →
  ∃ record,
    streamed st' = streamed st ++ [(case_id env test, record)]
    ∧ neo_results st' !! case_id env test = Some record
    ∧ case_id_elems env test
      = [case_file env test; class_name test]
        ++ (if is_TestCase test then [testMethodName test] else [])
    ∧ (split "::" (case_id env test) = case_id_elems env test
       ↔ Forall (λ e, contains "::" e = false) (case_id_elems env test)
         ∧ Forall (λ e, endswith e ":" = false)
             (removelast (case_id_elems env test))).
Proof.
  intros Ho. rewrite report_eq.
  assert (case_id_elems env test
          = [case_file env test; class_name test]
            ++ (if is_TestCase test then [testMethodName test] else []))
    as Helems.
  { unfold case_id_elems. by destruct (is_TestCase test). }
  assert (split "::" (case_id env test) = case_id_elems env test
          ↔ Forall (λ e, contains "::" e = false) (case_id_elems env test)
            ∧ Forall (λ e, endswith e ":" = false)
                (removelast (case_id_elems env test))) as Hiff.
  { apply split_join_colons_iff. by rewrite Helems. }
  destruct o as [|err|err|err|]; [| | | |done].
  - intros [= <-]. exists passed_record.
    split; [done|]. split; [apply emitted_lookup|done].
  - destruct (next _) as [line|e]; [|done]. intros [= <-].
    exists (failed_record line).
    split; [done|]. split; [apply emitted_lookup|done].
  - destruct (next _) as [line|e]; [|done]. intros [= <-].
    exists (failed_record line).
    split; [done|]. split; [apply emitted_lookup|done].
  - destruct (next _) as [line|e]; [|done]. intros [= <-].
    exists (failed_record line).
    split; [done|]. split; [apply emitted_lookup|done].
Qed.

(** the key of the scenario's test splits back *)
Lemma result_key_scenario :
  let st' := (report Scenario.env (Scenario.test, Success) Scenario.st).2 in
  Success ≠ Other
  ∧ report Scenario.env (Scenario.test, Success) Scenario.st = (Ok tt, st')
  ∧ split "::" (case_id Scenario.env Scenario.test)
    = ["/proj/tests/test_foo.py"; "FooTest"; "test_bar"].
Proof.
  assert (Success ≠ Other) as Ho by discriminate.
  assert (report Scenario.env (Scenario.test, Success) Scenario.st
          = (Ok tt, (report Scenario.env (Scenario.test, Success)
                       Scenario.st).2)) as H.
  { reflexivity. }
  split; [exact Ho|]. split; [exact H|].
  destruct (result_key_splits_back Scenario.env Scenario.test Success
              Scenario.st _ Ho H) as (record & _ & _ & _ & Hiff).
  rewrite (proj2 Hiff); [reflexivity|].
  split; repeat apply Forall_cons_2; try apply Forall_nil_2; reflexivity.
Defined.

(** C9 fails on the empty argument list: there is no last element, and
    [run] raises [IndexError] after it has extended [sys.path]. *)
Lemma run_without_arguments_raises :
  run Scenario.build_suite Scenario.env [] Scenario.st
  = (Raise IndexError,
     {| sys_path := ["/proj"; "/usr/lib/python3"];
        neo_results := ∅;
        streamed := [] |}).
Proof. reflexivity. Qed.

(** C9, as the code has it.  On an argument list with a last element,
    [run] reads that element alone.  When [id_to_unittest_args] returns its
    label for it ([sys.argv] holding the program name), [run] puts the
    working directory first in [sys.path], gives a fresh result object the
    suite of exactly that label, and returns the [neo_results] the
    interceptor filled, or raises what a callback raised. *)
Theorem run_last_identifier build_suite env earlier case_id st :
  run build_suite env (earlier ++ [case_id]) st
  = run build_suite env [case_id] st
  ∧ ∀ label,
      sys_argv env ≠ [] →
      id_to_unittest_args env case_id = Ok [label] →
      run build_suite env (earlier ++ [case_id]) st =
      match
        run_suite env (build_suite [label])
          {| sys_path := getcwd env :: sys_path st;
             neo_results := ∅;
             streamed := streamed st |}
      with
      | (Ok _, st') => (Ok (neo_results st'), st')
      | (Raise e, st') => (Raise e, st')
      end.
Proof.
  assert (index_last (earlier ++ [case_id]) = Ok case_id) as Hlast.
  { unfold index_last. by rewrite last_snoc. }
  split.
  - unfold run. unfold_M. by rewrite Hlast.
  - intros label Hargv Hid. unfold run, run_tests, suite_result, init.
    unfold_M. rewrite Hlast, Hid.
    destruct (sys_argv env) as [|argv0 rest]; [done|]. simpl.
    unfold set_neo_results, set_sys_path. simpl.
    by destruct (run_suite _ _ _) as [[[]|e] st'].
Qed.

(** a run of the scenario: the first argument is not looked at, the test
    of the last one passes *)
Lemma run_scenario :
  (run Scenario.build_suite Scenario.env
     ["/proj/other.py"; "/proj/tests/test_foo.py::FooTest::test_bar"]
     Scenario.st).1
  = Ok {[ "/proj/tests/test_foo.py::FooTest::test_bar"
          := PDict [("status", PStatus PASSED)] ]}.
Proof.
  destruct (run_last_identifier Scenario.build_suite Scenario.env
              ["/proj/other.py"] "/proj/tests/test_foo.py::FooTest::test_bar"
              Scenario.st) as [_ H].
  simpl app in H.
  rewrite (H "tests.test_foo.FooTest.test_bar"); [|discriminate|reflexivity].
  reflexivity.
Defined.

End Claims.

(** * Further properties of the run *)







(** X4.  What [run] returns agrees with what it streamed: the mapping holds,
    under every identifier, the record of the last call of [stream] made
    under it during this run, and nothing under an identifier that was not
    streamed; records left from before the run are gone. *)
Theorem run_returns_last_streamed build_suite env args st m st' :
  run build_suite env args st = (Ok m, st') →
  ∃ calls,
    streamed st' = streamed st ++ calls
    ∧ neo_results st' = m
    ∧ ∀ key, m !! key = last_streamed key calls.
Proof.
  rewrite run_eq. simpl.
  destruct (index_last args) as [case|e]; [|done].
  destruct (id_to_unittest_args env case) as [labels|e]; [|done].
  destruct (index _ 1) as [label|e]; [|done].
  set (st1 := set_neo_results _ _).
  destruct (run_suite_effect env (build_suite [label]) st1)
    as (calls & Hs & _ & Hm & _).
  destruct (run_suite _ _ _) as [[[]|e] st2]; [|done].
  simpl in Hs, Hm. intros [= <- <-]. exists calls.
  split; [exact Hs|]. split; [done|].
  intros key. rewrite Hm. unfold stored_over.
  destruct (last_streamed key calls); [done|]. apply lookup_empty.
Qed.

Lemma run_twice_reported :
  let r := run (λ _, suite_twice) Scenario.env ["/proj/tests"] Scenario.st in
  ∃ m, r = (Ok m, r.2)
       ∧ dict_get "status" <$> m !! "/proj/tests/test_foo.py::FooTest::test_bar"
         = Some (Some (PStatus PASSED))
       ∧ length (streamed r.2) = 2.
Proof.
  set (r := run _ _ _ _).
  assert (r = (Ok (neo_results r.2), r.2)) as Hr by (by vm_compute).
  exists (neo_results r.2). split; [exact Hr|].
  destruct (run_returns_last_streamed _ _ _ _ _ _ Hr)
    as (calls & Hs & _ & Hm).
  rewrite Hm. subst r. vm_compute in Hs. subst calls. by vm_compute.
Defined.

(** X6.  An identifier that begins with ["::"] makes [run] raise the
    [ValueError] of the translation before anything is run: no test is
    reported, nothing is streamed, the results of before are not cleared;
    only [sys.path] has been extended. *)
Theorem run_rejects_empty_path build_suite env earlier case_id st :
  PyStr.startswith case_id "::" = true →
  run build_suite env (earlier ++ [case_id]) st
  = (Raise ValueError,
     {| sys_path := getcwd env :: sys_path st;
        neo_results := neo_results st;
        streamed := streamed st |}).
Proof.
  intros Hstart.
  by rewrite run_eq, index_last_snoc, id_to_unittest_args_empty_path.
Qed.

Lemma run_rejects_empty_path_scenario :
  PyStr.startswith "::FooTest" "::" = true
  ∧ (run Scenario.build_suite Scenario.env ["::FooTest"] Scenario.st).1
    = Raise ValueError.
Proof.
  split; [reflexivity|].
  pose proof (run_rejects_empty_path Scenario.build_suite Scenario.env []
                "::FooTest" Scenario.st eq_refl) as H.
  simpl app in H. by rewrite H.
Defined.

(** X7.  [run] reads the second element of [sys.argv[0:1]] followed by the
    label: when [sys.argv] is empty there is none, and [run] raises
    [IndexError] for every identifier the translation accepts, before any
    test is run. *)
Theorem run_needs_program_name build_suite env earlier case_id st :
  sys_argv env = [] →
  PyStr.startswith case_id "::" = false →
  run build_suite env (earlier ++ [case_id]) st
  = (Raise IndexError,
     {| sys_path := getcwd env :: sys_path st;
        neo_results := neo_results st;
        streamed := streamed st |}).
Proof.
  intros Hargv Hstart.
  destruct (id_to_unittest_args_returns env case_id Hstart) as [label Hl].
  by rewrite run_eq, index_last_snoc, Hl, Hargv.
Qed.

Lemma run_needs_program_name_scenario :
  sys_argv env_no_argv = []
  ∧ (run Scenario.build_suite env_no_argv
       ["/proj/tests/test_foo.py::FooTest::test_bar"] Scenario.st).1
    = Raise IndexError.
Proof.
  split; [reflexivity|].
  pose proof (run_needs_program_name Scenario.build_suite env_no_argv []
                "/proj/tests/test_foo.py::FooTest::test_bar" Scenario.st
                eq_refl eq_refl) as H.
  simpl app in H. by rewrite H.
Defined.

(** * Further properties of identifiers and keys *)

Section IdentifierProperties.
Import PyStr PosixPath.

(** X10.  A test file below the working directory may be written relative
    to it: the identifier made of the names from the directory to the file
    gets the label the absolute path gets, the names with the extension
    left out, joined by dots, followed by the child segments if there are
    any. *)
Theorem relative_identifier_label env cs dirs stem ext :
  getcwd env = rooted cs →
  cs ≠ [] ∧ Forall (λ x, is_name x = true) cs →
  Forall (λ x, is_name x = true) dirs →
  contains "/" stem = false ∧ only_dots stem = false →
  contains "/" ext = false ∧ contains "." ext = false →
  let relative := join "/" (dirs ++ [stem +:+ "." +:+ ext]) in
  contains "::" relative = false →
  (isfile env relative = true →
   id_to_unittest_args env relative = Ok [join "." (dirs ++ [stem])])
  ∧ (endswith relative ":" = false →
     ∀ child child_ids,
       Forall (λ e, contains "::" e = false) (child :: child_ids) →
       Forall (λ e, endswith e ":" = false)
         (removelast (child :: child_ids)) →
       id_to_unittest_args env (join "::" (relative :: child :: child_ids))
       = Ok [join "." (dirs ++ [stem] ++ child :: child_ids)]).
Proof.
  intros Hcwd Hcs Hdirs Hstem Hext relative Hsep.
  pose proof (relpath_relative env cs dirs stem ext Hcwd Hcs Hdirs Hstem Hext)
    as Hrel.
  split.
  - intros Hfile. by eapply label_of_file.
  - intros Hend child child_ids Hc He. by eapply label_of_children.
Qed.

Lemma relative_identifier_scenario :
  id_to_unittest_args Scenario.env "tests/test_foo.py::FooTest::test_bar"
  = Ok ["tests.test_foo.FooTest.test_bar"].
Proof.
  assert (["proj"] ≠ [] ∧ Forall (λ x, is_name x = true) ["proj"]) as Hcs.
  { split; [done|]. by repeat constructor. }
  assert (Forall (λ x, is_name x = true) ["tests"]) as Hdirs.
  { by repeat constructor. }
  destruct (relative_identifier_label Scenario.env ["proj"] ["tests"]
              "test_foo" "py" eq_refl Hcs Hdirs
              (conj eq_refl eq_refl) (conj eq_refl eq_refl) eq_refl)
    as [_ H].
  apply (H eq_refl "FooTest" ["test_bar"]); by repeat constructor.
Defined.

(** X11.  For an identifier with child segments the file system is not
    looked at: two environments with the same working directory give the
    same result, whether the file exists in them or not. *)
Theorem children_label_ignores_files env1 env2 case_id :
  contains "::" case_id = true →
  getcwd env1 = getcwd env2 →
  id_to_unittest_args env1 case_id = id_to_unittest_args env2 case_id.
Proof.
  intros Hsep Hcwd.
  destruct (split_with_sep "::" case_id)
    as (path & child & child_ids & Hsplit); [done..|].
  rewrite !(id_to_unittest_args_children _ _ _ _ _ Hsplit).
  by rewrite Hcwd, (relpath_same_cwd env1 env2).
Qed.

Lemma children_label_without_file :
  isfile env_no_files "/proj/tests/test_foo.py" = false
  ∧ id_to_unittest_args env_no_files
      "/proj/tests/test_foo.py::FooTest::test_bar"
    = Ok ["tests.test_foo.FooTest.test_bar"].
Proof.
  split; [reflexivity|].
  by rewrite (children_label_ignores_files env_no_files Scenario.env
                "/proj/tests/test_foo.py::FooTest::test_bar"
                eq_refl eq_refl).
Defined.

(** X12.  Two tests whose recorded elements split back (none has ["::"] in
    it, none but the last ends in [":"]) get the same key exactly when
    they have the same elements: the same file, the same class, and both
    or neither a method, the same one.  The method is an element for a
    Django [TestCase] only: the methods of another class all get the key
    of the class. *)
Theorem case_id_injective env t1 t2 :
  Forall (λ e, contains "::" e = false) (case_id_elems env t1) →
  Forall (λ e, endswith e ":" = false) (removelast (case_id_elems env t1)) →
  Forall (λ e, contains "::" e = false) (case_id_elems env t2) →
  Forall (λ e, endswith e ":" = false) (removelast (case_id_elems env t2)) →
  case_id env t1 = case_id env t2
  ↔ case_file env t1 = case_file env t2
    ∧ class_name t1 = class_name t2
    ∧ is_TestCase t1 = is_TestCase t2
    ∧ (is_TestCase t1 = true → testMethodName t1 = testMethodName t2).
Proof.
  intros Hc1 He1 Hc2 He2. split.
  - intros Hid.
    assert (case_id_elems env t1 = case_id_elems env t2) as Helems.
    { rewrite <- (split_join_colons (case_id_elems env t1)),
        <- (split_join_colons (case_id_elems env t2)); try done.
      - by f_equal.
      - unfold case_id_elems. by destruct (is_TestCase t2).
      - unfold case_id_elems. by destruct (is_TestCase t1). }
    unfold case_id_elems in Helems.
    destruct (is_TestCase t1), (is_TestCase t2); by simplify_eq/=.
  - intros (Hf & Hcl & Ht & Hm). unfold case_id, case_id_elems.
    rewrite <- Ht, Hf, Hcl. destruct (is_TestCase t1); [|done].
    by rewrite Hm.
Qed.

Lemma case_id_injective_scenario :
  (module_file Scenario.test ≠ module_file test_relative_module
   ∧ case_id Scenario.env Scenario.test
     = case_id Scenario.env test_relative_module
   ∧ case_file Scenario.env Scenario.test
     = case_file Scenario.env test_relative_module)
  ∧ (testMethodName test_plain_bar ≠ testMethodName test_plain_baz
     ∧ case_id Scenario.env test_plain_bar
       = case_id Scenario.env test_plain_baz).
Proof.
  assert (∀ t elems,
            case_id_elems Scenario.env t = elems →
            elems = ["/proj/tests/test_foo.py"; "FooTest"; "test_bar"]
            ∨ elems = ["/proj/tests/test_foo.py"; "PlainTest"] →
            Forall (λ e, contains "::" e = false)
              (case_id_elems Scenario.env t)
            ∧ Forall (λ e, endswith e ":" = false)
                (removelast (case_id_elems Scenario.env t))) as H.
  { intros t elems -> [-> | ->]; split; by repeat constructor. }
  split.
  - split; [discriminate|]. split; [reflexivity|].
    destruct (H Scenario.test _ eq_refl (or_introl eq_refl)) as [Hc1 He1].
    destruct (H test_relative_module _ eq_refl (or_introl eq_refl))
      as [Hc2 He2].
    by destruct (proj1 (case_id_injective Scenario.env Scenario.test
                          test_relative_module Hc1 He1 Hc2 He2) eq_refl)
      as (Hf & _).
  - split; [discriminate|].
    destruct (H test_plain_bar _ eq_refl (or_intror eq_refl)) as [Hc1 He1].
    destruct (H test_plain_baz _ eq_refl (or_intror eq_refl)) as [Hc2 He2].
    apply (case_id_injective Scenario.env test_plain_bar test_plain_baz
             Hc1 He1 Hc2 He2).
    by repeat split.
Defined.

(** X13.  When the working directory is an absolute path, so is the file
    every key begins with: [case_file] and the key start with ["/"],
    whatever the module's [__file__] is. *)
Theorem case_id_absolute env test :
  startswith (getcwd env) "/" = true →
  startswith (case_file env test) "/" = true
  ∧ startswith (case_id env test) "/" = true.
Proof.
  intros Hcwd.
  assert (startswith (case_file env test) "/" = true) as Hf.
  { by apply absolute_is_absolute. }
  split; [done|]. apply startswith_app in Hf as [r Hr].
  apply startswith_app. unfold case_id, case_id_elems. rewrite Hr.
  destruct (is_TestCase test); simpl app; rewrite !join_cons_cons;
    by eexists.
Qed.

Lemma case_id_absolute_scenario :
  startswith (getcwd Scenario.env) "/" = true
  ∧ module_file test_relative_module = "tests/./test_foo.py"
  ∧ startswith (case_id Scenario.env test_relative_module) "/" = true.
Proof.
  do 2 (split; [reflexivity|]).
  by destruct (case_id_absolute Scenario.env test_relative_module eq_refl)
    as [_ H].
Defined.

(** X14.  The key the interceptor records for a test of a file below the
    working directory is the file, the class and, for a Django [TestCase],
    the method, joined by ["::"].  When none of these has ["::"] in it and
    none but the last ends in [":"], [id_to_unittest_args] translates this
    key to the dotted label of the test. *)
Theorem key_translates_to_label env cs dirs stem ext test :
  getcwd env = rooted cs →
  cs ≠ [] ∧ Forall (λ x, is_name x = true) cs →
  Forall (λ x, is_name x = true) dirs →
  contains "/" stem = false ∧ only_dots stem = false →
  contains "/" ext = false ∧ contains "." ext = false →
  module_file test = test_path env dirs stem ext →
  let children :=
    class_name test
    :: (if is_TestCase test then [testMethodName test] else []) in
  Forall (λ e, contains "::" e = false)
    (test_path env dirs stem ext :: children) →
  Forall (λ e, endswith e ":" = false)
    (removelast (test_path env dirs stem ext :: children)) →
  case_id env test = join "::" (test_path env dirs stem ext :: children)
  ∧ id_to_unittest_args env (case_id env test)
    = Ok [join "." (dirs ++ [stem] ++ children)].
Proof.
  intros Hcwd Hcs Hdirs Hstem Hext Hmod children Hc He.
  assert (case_id env test
          = join "::" (test_path env dirs stem ext :: children)) as Hid.
  { unfold case_id, case_id_elems.
    rewrite (case_file_below env cs dirs stem ext) by done.
    subst children. by destruct (is_TestCase test). }
  split; [done|]. rewrite Hid. subst children.
  apply Forall_cons in Hc as [Hf Hc].
  rewrite removelast_cons_cons in He. apply Forall_cons in He as [Hfe He].
  eapply label_of_children; try done.
  by eapply relpath_file.
Qed.

(** the scenario's test; and a test below a directory with ["::"] in its
    name, whose key is not translated to its label *)
Lemma key_translates_scenario :
  (case_id Scenario.env Scenario.test
   = "/proj/tests/test_foo.py::FooTest::test_bar"
   ∧ id_to_unittest_args Scenario.env (case_id Scenario.env Scenario.test)
     = Ok ["tests.test_foo.FooTest.test_bar"])
  ∧ id_to_unittest_args Scenario.env
      (case_id Scenario.env Scenario.test_colons)
    = Ok ["a.b/test_foo.py.FooTest.test_bar"].
Proof.
  split; [|reflexivity].
  assert (["proj"] ≠ [] ∧ Forall (λ x, is_name x = true) ["proj"]) as Hcs.
  { split; [done|]. by repeat constructor. }
  assert (Forall (λ x, is_name x = true) ["tests"]) as Hdirs.
  { by repeat constructor. }
  apply (key_translates_to_label Scenario.env ["proj"] ["tests"]
           "test_foo" "py" Scenario.test eq_refl Hcs Hdirs
           (conj eq_refl eq_refl) (conj eq_refl eq_refl) eq_refl);
    by repeat constructor.
Defined.

(** X15.  Labels are ambiguous: a class of a test module and a test module
    of that name in a package named as the first module get the same
    label, though the identifiers differ. *)
Theorem class_and_module_share_label env cs dirs stem ext child ext' :
  getcwd env = rooted cs →
  cs ≠ [] ∧ Forall (λ x, is_name x = true) cs →
  Forall (λ x, is_name x = true) dirs →
  contains "/" stem = false ∧ only_dots stem = false →
  contains "/" ext = false ∧ contains "." ext = false →
  contains "/" child = false ∧ only_dots child = false →
  contains "/" ext' = false ∧ contains "." ext' = false →
  let class_id := join "::" [test_path env dirs stem ext; child] in
  let module_id := test_path env (dirs ++ [stem]) child ext' in
  contains "::" (test_path env dirs stem ext) = false →
  endswith (test_path env dirs stem ext) ":" = false →
  contains "::" child = false →
  contains "::" module_id = false →
  isfile env module_id = true →
  class_id ≠ module_id
  ∧ id_to_unittest_args env class_id = Ok [join "." (dirs ++ [stem; child])]
  ∧ id_to_unittest_args env module_id
    = Ok [join "." (dirs ++ [stem; child])].
Proof.
  intros Hcwd Hcs Hdirs Hstem Hext Hchild Hext' class_id module_id
    Hsep Hend Hcsep Hmsep Hfile.
  split; [|split].
  - intros Heq. subst class_id. rewrite <- Heq in Hmsep.
    by rewrite contains_colons_join in Hmsep.
  - subst class_id.
    apply (label_of_children env dirs stem ext Hdirs Hstem Hext).
    + by eapply relpath_file.
    + done.
    + done.
    + by apply Forall_singleton.
    + by apply Forall_nil.
  - assert (Forall (λ x, is_name x = true) (dirs ++ [stem])) as Hpkg.
    { apply Forall_app. split; [done|]. apply Forall_singleton.
      destruct Hstem. by apply stem_is_name. }
    replace (dirs ++ [stem; child]) with ((dirs ++ [stem]) ++ [child])
      by (by rewrite <- app_assoc).
    apply (label_of_file env (dirs ++ [stem]) child ext' Hpkg Hchild Hext');
      [|done..].
    by eapply relpath_file.
Qed.

Lemma class_and_module_scenario :
  isfile env_package "/proj/tests/test_foo/FooTest.py" = true
  ∧ id_to_unittest_args env_package "/proj/tests/test_foo.py::FooTest"
    = Ok ["tests.test_foo.FooTest"]
  ∧ id_to_unittest_args env_package "/proj/tests/test_foo/FooTest.py"
    = Ok ["tests.test_foo.FooTest"].
Proof.
  split; [reflexivity|].
  assert (["proj"] ≠ [] ∧ Forall (λ x, is_name x = true) ["proj"]) as Hcs.
  { split; [done|]. by repeat constructor. }
  assert (Forall (λ x, is_name x = true) ["tests"]) as Hdirs.
  { by repeat constructor. }
  by destruct (class_and_module_share_label env_package ["proj"] ["tests"]
                 "test_foo" "py" "FooTest" "py" eq_refl Hcs Hdirs
                 (conj eq_refl eq_refl) (conj eq_refl eq_refl)
                 (conj eq_refl eq_refl) (conj eq_refl eq_refl)
                 eq_refl eq_refl eq_refl eq_refl eq_refl) as (_ & H1 & H2).
Defined.

End IdentifierProperties.
